(** * Chainsaw: the ingestion pipeline, the hybrid store and the Cypher
    transpiler, embedded in Rocq.

    The Go sources are translated function by function.  Conventions:

    - a Go [string] is a [string] of Rocq (a sequence of 8-bit characters, as
      Go strings are sequences of bytes); a Go [int]/[int64] is a [Z];
    - a Go function returning [(T, error)] returns a [result T]: [Ok] for a nil
      error, [Err] for a non-nil one, [Panic] for a run-time panic (nil
      dereference, index out of range);
    - a nil-able pointer field is an [option];
    - the SQLite database is a record of tables; each statement the code
      executes is a function on that record.  Failures of the storage medium
      itself (a full disk, a locked file) are outside the model, so a
      statement fails only where the schema makes it fail;
    - functions of the Go standard library and of other external packages
      whose source is not part of the repository (regular expressions, JSON
      decoding, SHA-256, content sniffing, the vector distance) are fields of
      type classes: every theorem holds for all their implementations. *)

From Stdlib Require Import ZArith Lia List String Ascii DecimalString QArith.
From stdpp Require Import base tactics option list strings gmap sorting.

Local Open Scope Z_scope.

(** ** Results of Go calls *)

Inductive result (A : Type) : Type :=
| Ok (a : A)
| Err (msg : string)
| Panic (msg : string).
Arguments Ok {A} a.
Arguments Err {A} msg.
Arguments Panic {A} msg.

#[global] Instance result_ret : MRet result := fun A a => Ok a.
#[global] Instance result_bind : MBind result := fun A B f m =>
  match m with
  | Ok a => f a
  | Err e => Err e
  | Panic e => Panic e
  end.

Definition is_Ok {A} (r : result A) : bool :=
  match r with Ok _ => true | _ => false end.

Definition is_Err {A} (r : result A) : bool :=
  match r with Err _ => true | _ => false end.

(** ** The fragment of package [strings] and [fmt] the code uses *)

Module strings.

Definition nl : string := String (ascii_of_nat 10) EmptyString.

(** [fmt.Sprintf("%d", z)] *)
Definition itoa (z : Z) : string := NilZero.string_of_int (Z.to_int z).

(** [len(s)] *)
Definition len (s : string) : Z := Z.of_nat (String.length s).

(** [strings.HasPrefix(s, p)] *)
Fixpoint HasPrefix (s p : string) {struct p} : bool :=
  match p, s with
  | EmptyString, _ => true
  | String _ _, EmptyString => false
  | String a p', String b s' => Ascii.eqb b a && HasPrefix s' p'
  end.

(** [s[i:]] for [0 <= i <= len(s)] *)
Fixpoint drop_str (n : nat) (s : string) : string :=
  match n, s with
  | O, _ => s
  | S n', String _ s' => drop_str n' s'
  | S _, EmptyString => EmptyString
  end.

(** [s[:i]] for [0 <= i <= len(s)] *)
Fixpoint take_str (n : nat) (s : string) : string :=
  match n, s with
  | O, _ => EmptyString
  | S n', String c s' => String c (take_str n' s')
  | S _, EmptyString => EmptyString
  end.

(** [strings.HasSuffix(s, p)] *)
Definition HasSuffix (s p : string) : bool :=
  (String.length p <=? String.length s)%nat &&
  String.eqb (drop_str (String.length s - String.length p) s) p.

(** [strings.TrimSuffix(s, p)] *)
Definition TrimSuffix (s p : string) : string :=
  if HasSuffix s p then take_str (String.length s - String.length p) s else s.

(** [strings.Contains(s, sub)] *)
Fixpoint Contains (s sub : string) : bool :=
  HasPrefix s sub ||
  match s with
  | EmptyString => false
  | String _ s' => Contains s' sub
  end.

(** [strings.Join(elems, sep)] *)
Fixpoint Join (elems : list string) (sep : string) : string :=
  match elems with
  | [] => ""
  | [e] => e
  | e :: rest => e +:+ sep +:+ Join rest sep
  end.

(** [strings.Split(s, "\n")]: the pieces between the newlines, so that an
    input without newline (also the empty one) gives one piece. *)
Fixpoint SplitLines (s : string) : list string :=
  match s with
  | EmptyString => [EmptyString]
  | String c s' =>
      if Ascii.eqb c (ascii_of_nat 10) then EmptyString :: SplitLines s'
      else match SplitLines s' with
           | [] => [String c EmptyString]
           | l :: ls => String c l :: ls
           end
  end.

(** [strings.Index(s, "\n")], [None] for Go's -1 *)
Fixpoint IndexNewline (s : string) : option nat :=
  match s with
  | EmptyString => None
  | String c s' =>
      if Ascii.eqb c (ascii_of_nat 10) then Some O
      else S <$> IndexNewline s'
  end.

End strings.

(** ** Package [cypher/ast] *)

Module ast.

Record Node := {
  Node_Variable : string;
  Node_Label : string (* entity_type filter *)
}.

Record Edge := {
  Edge_Type : string;      (* relation_type filter *)
  Edge_Direction : string; (* "->", "<-", "-" *)
  Edge_MinHops : Z;        (* 0 = not specified *)
  Edge_MaxHops : Z         (* 0 = not specified *)
}.

Record PathPattern := {
  SourceNode : Node;
  PEdge : Edge;
  TargetNode : Node
}.

Record MatchClause := { Pattern : PathPattern }.

Record AggregateFunction := {
  Agg_Function : string; (* "COUNT", "SUM", "AVG", "MIN", "MAX" *)
  Agg_Variable : string;
  Agg_Property : string
}.

Record ReturnItem := {
  Item_Variable : string;
  Item_Property : string;                (* empty if returning whole variable *)
  Item_Aggregate : option AggregateFunction;
  Item_Alias : string                    (* AS alias (empty if none) *)
}.

Record ReturnClause := { Return_Items : list ReturnItem }.

Record GroupByItem := { Group_Variable : string; Group_Property : string }.
Record GroupByClause := { Group_Items : list GroupByItem }.

Record OrderByItem := { Expression : string; Ascending : bool }.
Record OrderByClause := { Order_Items : list OrderByItem }.

Record LimitClause := { Count : Z }.

Record Query := {
  Match : MatchClause;
  Return : ReturnClause;
  GroupBy : option GroupByClause;
  OrderBy : option OrderByClause;
  Limit : option LimitClause
}.

(** The constructors the generated parser calls, on token literals. *)

Definition NewQuery (m : MatchClause) (r : ReturnClause) : Query :=
  {| Match := m; Return := r; GroupBy := None; OrderBy := None; Limit := None |}.

Definition NewPathPattern (source : Node) (edge : Edge) (target : Node) : PathPattern :=
  {| SourceNode := source; PEdge := edge; TargetNode := target |}.

Definition NewNodeLabeled (var label : string) : Node :=
  {| Node_Variable := var; Node_Label := label |}.

Definition NewNodeVar (var : string) : Node :=
  {| Node_Variable := var; Node_Label := "" |}.

Definition NewEdgeForward (type : string) : Edge :=
  {| Edge_Type := type; Edge_Direction := "->"; Edge_MinHops := 0; Edge_MaxHops := 0 |}.

Definition NewEdgeBackward (type : string) : Edge :=
  {| Edge_Type := type; Edge_Direction := "<-"; Edge_MinHops := 0; Edge_MaxHops := 0 |}.

Definition NewReturnProp (var prop : string) : ReturnItem :=
  {| Item_Variable := var; Item_Property := prop; Item_Aggregate := None; Item_Alias := "" |}.

Definition NewReturnAggregateWithAlias (func var alias : string) : ReturnItem :=
  {| Item_Variable := ""; Item_Property := "";
     Item_Aggregate := Some {| Agg_Function := func; Agg_Variable := var;
                               Agg_Property := "" |};
     Item_Alias := alias |}.

Definition NewQueryWithClauses (m : MatchClause) (r : ReturnClause)
    (groupBy : option GroupByClause) (orderBy : option OrderByClause)
    (limit : option LimitClause) : Query :=
  {| Match := m; Return := r; GroupBy := groupBy; OrderBy := orderBy; Limit := limit |}.

(** [NewEdgeMultiHopForward] on the hop bounds already read from the tokens
    (1 and 10 when a bound is missing). *)
Definition NewEdgeMultiHopForward (type : string) (minHops maxHops : Z) : Edge :=
  {| Edge_Type := type; Edge_Direction := "->";
     Edge_MinHops := minHops; Edge_MaxHops := maxHops |}.

End ast.

(** ** Package [cypher]: the SQL generator *)

Module cypher.
Import strings ast.

Record TranspileOptions := {
  CWD : string (* current working directory for path filtering (empty = no filtering) *)
}.

(** An element of [[]interface{}]: the generator binds strings and ints. *)
Inductive Arg :=
| ArgStr (s : string)
| ArgInt (n : Z).

Record TranspileResult := {
  SQL : string;
  Args : list Arg
}.

(** Which variable and label map to the SQL aliases [e1] and [e2]. *)
Record Binding := {
  e1Var : string; e1Label : string;
  e2Var : string; e2Label : string
}.

(** The direction decides which node is the SQL source [e1]; [undirected] is
    the error of the caller for any other direction. *)
Definition bindDirection (p : PathPattern) (undirected : string) : result Binding :=
  let src := SourceNode p in
  let tgt := TargetNode p in
  if String.eqb (Edge_Direction (PEdge p)) "->" then
    Ok {| e1Var := Node_Variable src; e1Label := Node_Label src;
          e2Var := Node_Variable tgt; e2Label := Node_Label tgt |}
  else if String.eqb (Edge_Direction (PEdge p)) "<-" then
    Ok {| e1Var := Node_Variable tgt; e1Label := Node_Label tgt;
          e2Var := Node_Variable src; e2Label := Node_Label src |}
  else Err undirected.

(** [tableAlias[1:]] *)
Definition aliasNum (tableAlias : string) : string := drop_str 1 tableAlias.

(** One non-aggregate column reference of the SELECT clause. *)
Definition colExpr (tableAlias : string) (item : ReturnItem) : string :=
  let v := Item_Variable item in
  let p := Item_Property item in
  if negb (String.eqb p "") then
    if String.eqb p "snippet" then
      "c" +:+ aliasNum tableAlias +:+ ".content_snippet AS " +:+ v +:+ "_snippet"
    else if String.eqb p "file" then
      "f" +:+ aliasNum tableAlias +:+ ".path AS " +:+ v +:+ "_file"
    else if String.eqb p "lines" then
      "(c" +:+ aliasNum tableAlias +:+ ".start_line || '-' || c" +:+
      aliasNum tableAlias +:+ ".end_line) AS " +:+ v +:+ "_lines"
    else
      tableAlias +:+ "." +:+ p +:+ " AS " +:+ v +:+ "_" +:+ p
  else tableAlias +:+ ".*".

Definition aggregateExpr (b : Binding) (item : ReturnItem) (agg : AggregateFunction)
  : result string :=
  tableAlias ←
    (if String.eqb (Agg_Variable agg) (e1Var b) then Ok "e1"
     else if String.eqb (Agg_Variable agg) (e2Var b) then Ok "e2"
     else Err ("unknown variable in aggregate: " +:+ Agg_Variable agg));
  aggExpr ←
    (let f := Agg_Function agg in
     if String.eqb f "COUNT" then Ok ("COUNT(DISTINCT " +:+ tableAlias +:+ ".id)")
     else if String.eqb f "SUM" || String.eqb f "AVG" || String.eqb f "MIN"
             || String.eqb f "MAX" then
       Err ("aggregate function " +:+ f +:+ " not yet supported")
     else Err ("unknown aggregate function: " +:+ f));
  Ok (if negb (String.eqb (Item_Alias item) "")
      then aggExpr +:+ " AS " +:+ Item_Alias item else aggExpr).

(** The loop over [q.Return.Items]; [acc] is [selectItems]. *)
Fixpoint selectLoop (b : Binding) (items : list ReturnItem) (acc : list string)
  : result (list string) :=
  match items with
  | [] => Ok acc
  | item :: rest =>
      match Item_Aggregate item with
      | Some agg =>
          e ← aggregateExpr b item agg;
          selectLoop b rest (acc ++ [e])
      | None =>
          if String.eqb (Item_Variable item) (e1Var b) then
            selectLoop b rest (acc ++ [colExpr "e1" item])
          else if String.eqb (Item_Variable item) (e2Var b) then
            selectLoop b rest (acc ++ [colExpr "e2" item])
          else if String.eqb (Item_Variable item) "" then
            selectLoop b rest acc
          else Err ("unknown variable in RETURN: " +:+ Item_Variable item)
      end
  end.

(** The WHERE conditions with their arguments, in the order the code appends
    them: source label, edge type, target label. *)
Definition whereClause (b : Binding) (edge : Edge) : list string * list Arg :=
  let c1 := if negb (String.eqb (e1Label b) "")
            then ([ "e1.entity_type = ?" ], [ ArgStr (e1Label b) ]) else ([], []) in
  let c2 := if negb (String.eqb (Edge_Type edge) "")
            then ([ "g.relation_type = ?" ], [ ArgStr (Edge_Type edge) ]) else ([], []) in
  let c3 := if negb (String.eqb (e2Label b) "")
            then ([ "e2.entity_type = ?" ], [ ArgStr (e2Label b) ]) else ([], []) in
  (c1.1 ++ c2.1 ++ c3.1, c1.2 ++ c2.2 ++ c3.2).

Fixpoint groupLoop (b : Binding) (items : list GroupByItem) (acc : list string)
  : result (list string) :=
  match items with
  | [] => Ok acc
  | item :: rest =>
      if String.eqb (Group_Variable item) (e1Var b) then
        groupLoop b rest (acc ++ [ "e1." +:+ Group_Property item ])
      else if String.eqb (Group_Variable item) (e2Var b) then
        groupLoop b rest (acc ++ [ "e2." +:+ Group_Property item ])
      else Err ("unknown variable in GROUP BY: " +:+ Group_Variable item)
  end.

Definition orderItem (item : OrderByItem) : string :=
  Expression item +:+ " " +:+ (if Ascending item then "ASC" else "DESC").

Definition fromClause : string :=
  nl +:+ "FROM entities e1" +:+
  nl +:+ "JOIN graph_edges g ON g.source_entity_id = e1.id" +:+
  nl +:+ "JOIN entities e2 ON g.target_entity_id = e2.id" +:+
  nl +:+ "LEFT JOIN vec_chunks c1 ON e1.chunk_id = c1.chunk_id" +:+
  nl +:+ "LEFT JOIN files f1 ON c1.file_id = f1.id" +:+
  nl +:+ "LEFT JOIN vec_chunks c2 ON e2.chunk_id = c2.chunk_id" +:+
  nl +:+ "LEFT JOIN files f2 ON c2.file_id = f2.id".

(** [generateSingleHopSQL]: the statement is assembled in the order of the
    [sql.WriteString] calls.  The parameter [opts] is received and, as in the
    source, not read. *)
Definition generateSingleHopSQL (q : Query) (opts : TranspileOptions)
  : result TranspileResult :=
  let pattern := Pattern (Match q) in
  let edge := PEdge pattern in
  b ← bindDirection pattern "undirected edges not yet supported";
  selectItems ← selectLoop b (Return_Items (Return q)) [];
  let sql := "SELECT " +:+ Join selectItems ", " +:+ fromClause in
  let '(whereConditions, args) := whereClause b edge in
  let sql := match whereConditions with
             | [] => sql
             | _ => sql +:+ nl +:+ "WHERE " +:+ Join whereConditions (nl +:+ "  AND ")
             end in
  sql ← match GroupBy q with
        | None => Ok sql
        | Some g =>
            groupItems ← groupLoop b (Group_Items g) [];
            Ok (sql +:+ nl +:+ "GROUP BY " +:+ Join groupItems ", ")
        end;
  let sql := match OrderBy q with
             | None => sql
             | Some o => sql +:+ nl +:+ "ORDER BY " +:+ Join (orderItem <$> Order_Items o) ", "
             end in
  let sql := match Limit q with
             | None => sql
             | Some l => sql +:+ nl +:+ "LIMIT " +:+ itoa (Count l)
             end in
  Ok {| SQL := sql; Args := args |}.

(** The loop over [q.Return.Items] of the multi-hop generator: no aggregates,
    and an empty variable is an unknown one. *)
Fixpoint multiHopSelectLoop (b : Binding) (items : list ReturnItem) (acc : list string)
  : result (list string) :=
  match items with
  | [] => Ok acc
  | item :: rest =>
      if String.eqb (Item_Variable item) (e1Var b) then
        multiHopSelectLoop b rest (acc ++ [colExpr "e1" item])
      else if String.eqb (Item_Variable item) (e2Var b) then
        multiHopSelectLoop b rest (acc ++ [colExpr "e2" item])
      else Err ("unknown variable in RETURN: " +:+ Item_Variable item)
  end.

(** [generateMultiHopSQL]: the recursive common-table expression. *)
Definition generateMultiHopSQL (q : Query) (opts : TranspileOptions)
  : result TranspileResult :=
  let pattern := Pattern (Match q) in
  let edge := PEdge pattern in
  b ← bindDirection pattern "undirected edges not supported in multi-hop";
  let typed := negb (String.eqb (Edge_Type edge) "") in
  let sql :=
    "WITH RECURSIVE paths(source_id, target_id, depth) AS (" +:+ nl +:+
    "  SELECT g.source_entity_id, g.target_entity_id, 1" +:+ nl +:+
    "  FROM graph_edges g" +:+ nl +:+
    "  JOIN entities e1 ON g.source_entity_id = e1.id" +:+ nl +:+
    "  JOIN entities e2 ON g.target_entity_id = e2.id" +:+ nl +:+
    "  WHERE 1=1" +:+ nl in
  let '(sql, args) :=
    if negb (String.eqb (e1Label b) "")
    then (sql +:+ "    AND e1.entity_type = ?" +:+ nl, [ ArgStr (e1Label b) ])
    else (sql, []) in
  let '(sql, args) :=
    if typed
    then (sql +:+ "    AND g.relation_type = ?" +:+ nl, args ++ [ ArgStr (Edge_Type edge) ])
    else (sql, args) in
  let '(sql, args) :=
    if negb (String.eqb (e2Label b) "")
    then (sql +:+ "    AND e2.entity_type = ?" +:+ nl, args ++ [ ArgStr (e2Label b) ])
    else (sql, args) in
  let sql := sql +:+ nl +:+ "  UNION ALL" +:+ nl +:+ nl +:+
    "  SELECT p.source_id, g.target_entity_id, p.depth + 1" +:+ nl +:+
    "  FROM paths p" +:+ nl +:+
    "  JOIN graph_edges g ON p.target_id = g.source_entity_id" +:+ nl in
  let '(sql, args) :=
    if typed
    then (sql +:+ "  WHERE g.relation_type = ?" +:+ nl, args ++ [ ArgStr (Edge_Type edge) ])
    else (sql, args) in
  let maxDepth := if Edge_MaxHops edge =? 0 then 10 else Edge_MaxHops edge in
  let sql := if typed then sql +:+ "    AND p.depth < ?" +:+ nl
             else sql +:+ "  WHERE p.depth < ?" +:+ nl in
  let args := args ++ [ ArgInt maxDepth ] in
  let sql := sql +:+ ")" +:+ nl +:+ "SELECT DISTINCT " in
  selectItems ← multiHopSelectLoop b (Return_Items (Return q)) [];
  let sql := sql +:+ Join selectItems ", " +:+
    nl +:+ "FROM paths p" +:+
    nl +:+ "JOIN entities e1 ON p.source_id = e1.id" +:+
    nl +:+ "JOIN entities e2 ON p.target_id = e2.id" +:+
    nl +:+ "LEFT JOIN vec_chunks c1 ON e1.chunk_id = c1.chunk_id" +:+
    nl +:+ "LEFT JOIN files f1 ON c1.file_id = f1.id" +:+
    nl +:+ "LEFT JOIN vec_chunks c2 ON e2.chunk_id = c2.chunk_id" +:+
    nl +:+ "LEFT JOIN files f2 ON c2.file_id = f2.id" in
  let '(sql, args) :=
    if Edge_MinHops edge >? 0
    then (sql +:+ nl +:+ "WHERE p.depth >= ?", args ++ [ ArgInt (Edge_MinHops edge) ])
    else (sql, args) in
  Ok {| SQL := sql; Args := args |}.

(** [generateSQL]: a hop bound makes the query a multi-hop one. *)
Definition generateSQL (q : Query) (opts : TranspileOptions) : result TranspileResult :=
  let edge := PEdge (Pattern (Match q)) in
  if (Edge_MinHops edge >? 0) || (Edge_MaxHops edge >? 0)
  then generateMultiHopSQL q opts
  else generateSingleHopSQL q opts.

(** The query of [TestTranspileWithCWD],
    [MATCH (f:FUNCTION)-[:calls]->(t) RETURN f.name, t.name],
    as the parser builds it from the [ast] constructors. *)
Definition cwdTestQuery : Query :=
  NewQuery
    {| Pattern := NewPathPattern (NewNodeLabeled "f" "FUNCTION")
                                 (NewEdgeForward "calls")
                                 (NewNodeVar "t") |}
    {| Return_Items := [ NewReturnProp "f" "name"; NewReturnProp "t" "name" ] |}.

Definition cwdTestOptions : TranspileOptions :=
  {| CWD := "/home/user/project/pkg/db" |}.

(** [wantSQL] and [wantArgs] of [TestTranspileWithCWD]. *)
Definition cwdTestWant : TranspileResult :=
  {| SQL := "SELECT e1.name AS f_name, e2.name AS t_name" +:+ fromClause +:+
            nl +:+ "WHERE (f1.path LIKE ? OR f2.path LIKE ?)" +:+
            nl +:+ "  AND e1.entity_type = ?" +:+
            nl +:+ "  AND g.relation_type = ?";
     Args := [ ArgStr "/home/user/project/pkg/db/%";
               ArgStr "/home/user/project/pkg/db/%";
               ArgStr "FUNCTION"; ArgStr "calls" ] |}.

(** Vocabulary of the properties of the generator. *)

(** The number of [?] placeholders of a statement. *)
Fixpoint placeholders (sql : string) : nat :=
  match sql with
  | EmptyString => 0
  | String c rest => ((if Ascii.eqb c "?" then 1 else 0) + placeholders rest)%nat
  end.

(** An identifier of the query text holds no [?] (the lexer reads letters,
    digits and underscores). *)
Definition plain (s : string) : Prop := placeholders s = 0%nat.

(** The identifiers of a query that end up in the text of the statement:
    labels and edge types are bound as arguments and so are not among them. *)
Definition plainItem (item : ReturnItem) : Prop :=
  plain (Item_Variable item) /\ plain (Item_Property item) /\ plain (Item_Alias item).

Definition plainQuery (q : Query) : Prop :=
  Forall plainItem (Return_Items (Return q))
  /\ (forall g, GroupBy q = Some g ->
                Forall (fun i => plain (Group_Property i)) (Group_Items g))
  /\ (forall o, OrderBy q = Some o ->
                Forall (fun i => plain (Expression i)) (Order_Items o)).

(** The same pattern written with the arrow the other way round:
    [(a)-[r]->(b)] becomes [(b)<-[r]-(a)]. *)
Definition reverseArrow (q : Query) : Query :=
  let p := Pattern (Match q) in
  let e := PEdge p in
  {| Match := {| Pattern := {| SourceNode := TargetNode p;
                               PEdge := {| Edge_Type := Edge_Type e;
                                           Edge_Direction := "<-";
                                           Edge_MinHops := Edge_MinHops e;
                                           Edge_MaxHops := Edge_MaxHops e |};
                               TargetNode := SourceNode p |} |};
     Return := Return q; GroupBy := GroupBy q; OrderBy := OrderBy q; Limit := Limit q |}.

(** The query without its GROUP BY, ORDER BY and LIMIT clauses. *)
Definition withoutClauses (q : Query) : Query := NewQuery (Match q) (Return q).

(** A RETURN item the single-hop generator accepts: a COUNT over one of the
    two pattern variables, or a column of one of them; an item without
    aggregate and with an empty variable is accepted (and left out). *)
Definition returnItemOk (b : Binding) (item : ReturnItem) : Prop :=
  match Item_Aggregate item with
  | Some agg =>
      (Agg_Variable agg = e1Var b \/ Agg_Variable agg = e2Var b)
      /\ Agg_Function agg = "COUNT"
  | None =>
      Item_Variable item = e1Var b \/ Item_Variable item = e2Var b
      \/ Item_Variable item = ""
  end.

Definition groupItemOk (b : Binding) (item : GroupByItem) : Prop :=
  Group_Variable item = e1Var b \/ Group_Variable item = e2Var b.

(** Two more queries of the tests: "count with order by and limit" of
    [TestAggregateTranspile],
    [MATCH (a)-[:calls]->(b) RETURN b.name, COUNT(a) AS callers GROUP BY b.name
     ORDER BY callers DESC LIMIT 10],
    and a hop range with a LIMIT,
    [MATCH (a:FUNCTION)-[:calls*1..3]->(b) RETURN a.name, b.name LIMIT 5]. *)
Definition countQuery : Query :=
  NewQueryWithClauses
    {| Pattern := NewPathPattern (NewNodeVar "a") (NewEdgeForward "calls") (NewNodeVar "b") |}
    {| Return_Items := [ NewReturnProp "b" "name";
                         NewReturnAggregateWithAlias "COUNT" "a" "callers" ] |}
    (Some {| Group_Items := [ {| Group_Variable := "b"; Group_Property := "name" |} ] |})
    (Some {| Order_Items := [ {| Expression := "callers"; Ascending := false |} ] |})
    (Some {| Count := 10 |}).

Definition hopQuery : Query :=
  NewQueryWithClauses
    {| Pattern := NewPathPattern (NewNodeLabeled "a" "FUNCTION")
                                 (NewEdgeMultiHopForward "calls" 1 3)
                                 (NewNodeVar "b") |}
    {| Return_Items := [ NewReturnProp "a" "name"; NewReturnProp "b" "name" ] |}
    None None (Some {| Count := 5 |}).

End cypher.

(** ** Package [filter] *)

Module filter.

(** [regexp.MatchString(pattern, s)]: [None] when the pattern does not
    compile (the code only logs that error and moves on). *)
Class Regexp := { MatchString : string -> string -> option bool }.

(** [filepath.Abs(path)] *)
Class Filepath := { Abs : string -> result string }.

Section Filter.
Context `{Regexp} `{Filepath}.

(** The loop over a pattern list: a pattern that does not compile is skipped,
    the first match stops the loop. *)
Fixpoint matchesAny (patterns : list string) (absPath : string) : bool :=
  match patterns with
  | [] => false
  | pattern :: rest =>
      match MatchString pattern absPath with
      | Some true => true
      | _ => matchesAny rest absPath
      end
  end.

Definition ShouldIndexFile (filePath : string) (blacklist whitelist : list string)
  : result bool :=
  absPath ← Abs filePath;
  let matchesBlacklist := matchesAny blacklist absPath in
  if negb matchesBlacklist then Ok true
  else if matchesAny whitelist absPath then Ok true
  else Ok false.

(** "P matches some pattern of the list": some pattern compiles and matches. *)
Definition matches (patterns : list string) (P : string) : Prop :=
  exists pattern, pattern ∈ patterns /\ MatchString pattern P = Some true.

End Filter.
End filter.

(** ** Package [llm]: the JSONL reply of the extraction provider *)

Module llm.
Import strings.

Record Edge := {
  Source : string;
  SourceType : string;
  Target : string;
  TargetType : string;
  RelationType : string
}.

Record ChunkInput := {
  In_ChunkID : Z;
  In_FileID : Z;
  In_FilePath : string;
  In_Content : string
}.

Record EdgeWithMetadata := {
  E_Edge : Edge;
  E_ChunkID : Z;
  E_FileID : Z
}.

Record ChunkMetadata := {
  Meta_ChunkID : Z;
  Meta_FileID : Z
}.

(** The anonymous struct a line is decoded into. *)
Record ParsedLine := {
  P_Chunk : Z;
  P_Source : string;
  P_SourceType : string;
  P_Target : string;
  P_TargetType : string;
  P_RelationType : string
}.

(** [json.Unmarshal([]byte(line), &parsed)] on a fresh [parsed]: the error
    text ([inl]) or the decoded struct ([inr]). *)
Class Json := { Unmarshal : string -> string + ParsedLine }.

(** [strings.TrimSpace] *)
Class Trim := { TrimSpace : string -> string }.

Section Jsonl.
Context `{Json} `{Trim}.

Definition stripMarkdownCodeFence (s : string) : string :=
  let s := TrimSpace s in
  if HasPrefix s "```" then
    match IndexNewline s with
    | None => s (* malformed, returned as it is *)
    | Some firstNewline =>
        let s := drop_str (firstNewline + 1) s in
        let s := if HasSuffix s "```" then take_str (String.length s - 3) s else s in
        TrimSpace s
    end
  else s.

Definition mkEdge (parsed : ParsedLine) (metadata : ChunkMetadata) : EdgeWithMetadata :=
  {| E_Edge := {| Source := P_Source parsed;
                  SourceType := P_SourceType parsed;
                  Target := P_Target parsed;
                  TargetType := P_TargetType parsed;
                  RelationType := P_RelationType parsed |};
     E_ChunkID := Meta_ChunkID metadata;
     E_FileID := Meta_FileID metadata |}.

(** The lines the loop does not [continue] past before decoding. *)
Definition looksLikeJSON (line : string) : bool :=
  negb (String.eqb line "") &&
  negb (HasPrefix line "```" || HasPrefix line "`" || String.eqb line "```json"
        || String.eqb line "```") &&
  HasPrefix line "{".

(** The loop over the lines; [lineNum] is the 0-based index of the first line
    of [lines], [edges] and [errors] are the two accumulators. *)
Fixpoint parseLoop (chunkMapping : gmap Z ChunkMetadata) (lines : list string)
    (lineNum : Z) (edges : list EdgeWithMetadata) (errors : list string)
  : list EdgeWithMetadata * list string :=
  match lines with
  | [] => (edges, errors)
  | line :: rest =>
      let line := TrimSpace line in
      if negb (looksLikeJSON line) then
        parseLoop chunkMapping rest (lineNum + 1) edges errors
      else
        match Unmarshal line with
        | inl err =>
            parseLoop chunkMapping rest (lineNum + 1) edges
              (errors ++ [ "line " +:+ itoa (lineNum + 1) +:+ ": " +:+ err ])
        | inr parsed =>
            match chunkMapping !! P_Chunk parsed with
            | None =>
                parseLoop chunkMapping rest (lineNum + 1) edges
                  (errors ++ [ "line " +:+ itoa (lineNum + 1) +:+
                               ": invalid chunk number " +:+ itoa (P_Chunk parsed) ])
            | Some metadata =>
                parseLoop chunkMapping rest (lineNum + 1)
                  (edges ++ [ mkEdge parsed metadata ]) errors
            end
        end
  end.

Definition ParseJSONL (response : string) (chunkMapping : gmap Z ChunkMetadata)
  : result (list EdgeWithMetadata) :=
  let response := stripMarkdownCodeFence response in
  let lines := SplitLines response in
  let '(edges, errors) := parseLoop chunkMapping lines 0 [] [] in
  match edges, errors with
  | _ :: _, _ => Ok edges
  | [], _ :: _ =>
      Err ("failed to parse JSONL: " +:+ Join (take 5 errors) "; ")
  | [], [] => Ok edges
  end.

(** [BuildMarkdownPrompt]: the chunk mapping it returns (chunk number [i+1]
    for the chunk at index [i]). *)
Fixpoint buildMapping (chunks : list ChunkInput) (chunkNum : Z)
    (m : gmap Z ChunkMetadata) : gmap Z ChunkMetadata :=
  match chunks with
  | [] => m
  | chunk :: rest =>
      buildMapping rest (chunkNum + 1)
        (<[ chunkNum := {| Meta_ChunkID := In_ChunkID chunk;
                           Meta_FileID := In_FileID chunk |} ]> m)
  end.

(** Vocabulary of the properties.  The lines of a response are those of the
    response once the surrounding fence is stripped.  A line holds a valid
    edge when, trimmed, it is not blank, does not start with a backtick,
    starts with an opening brace, decodes, and its chunk number is known. *)
Definition responseLines (response : string) : list string :=
  SplitLines (stripMarkdownCodeFence response).

Definition lineEdge (chunkMapping : gmap Z ChunkMetadata) (line : string)
  : option EdgeWithMetadata :=
  let l := TrimSpace line in
  if decide (l = "") then None
  else if HasPrefix l "`" then None
  else if negb (HasPrefix l "{") then None
  else match Unmarshal l with
       | inl _ => None
       | inr parsed => mkEdge parsed <$> (chunkMapping !! P_Chunk parsed)
       end.

(** A line is a parse error when it is not skipped and either does not decode
    or names a chunk number outside the mapping. *)
Definition lineFails (chunkMapping : gmap Z ChunkMetadata) (line : string) : bool :=
  let l := TrimSpace line in
  if decide (l = "") then false
  else if HasPrefix l "`" then false
  else if negb (HasPrefix l "{") then false
  else match Unmarshal l with
       | inl _ => true
       | inr parsed => bool_decide (chunkMapping !! P_Chunk parsed = None)
       end.

(** Blank, fenced and non-JSON lines. *)
Definition skippedLine (line : string) : Prop :=
  let l := TrimSpace line in
  l = "" \/ HasPrefix l "`" = true \/ HasPrefix l "{" = false.

End Jsonl.
End llm.

(** ** Package [db]: the store *)

Module db.
Import strings.

(** The part of the SQL engine that is not the repository's: the vec0
    virtual table of sqlite-vec (element type of an embedding, the cosine
    distance it reports as a float64, and the order SQLite sorts those
    distances in, a total preorder) and SQLite's [LIKE]. *)
Class SqliteVec := {
  float32 : Type;
  float64 : Type;
  vec_distance_cosine : list float32 -> list float32 -> float64;
  distance_le : relation float64;
  distance_le_dec :: RelDecision distance_le;
  distance_le_trans :: Transitive distance_le;
  distance_le_total :: Total distance_le;
  (** [LIKE pattern s]: [s LIKE pattern] *)
  LIKE : string -> string -> bool
}.

Section Store.
Context `{SqliteVec}.

(** *** Tables *)

(** A row of [files]. *)
Record FileRow := {
  id : Z;                          (* INTEGER PRIMARY KEY AUTOINCREMENT *)
  path : string;                   (* TEXT UNIQUE NOT NULL *)
  last_mod_time : Z;
  content_hash : string;
  indexed_at : Z;                  (* DATETIME DEFAULT CURRENT_TIMESTAMP *)
  status : string;                 (* TEXT DEFAULT 'indexed' *)
  error_message : option string;   (* TEXT, NULL = None *)
  retry_count : Z;                 (* INTEGER DEFAULT 0 *)
  queued_at : option Z             (* DATETIME, NULL = None *)
}.

(** A row of the virtual table [vec_chunks]. *)
Record ChunkRow := {
  chunk_id : Z;                    (* INTEGER PRIMARY KEY *)
  file_id : Z;
  content_snippet : string;
  start_line : Z;
  end_line : Z;
  embedding : list float32
}.

(** A row of [chunk_graph_state], keyed by [chunk_id]. *)
Record GraphStateRow := {
  graph_extracted : bool;          (* BOOLEAN DEFAULT 0 *)
  extracted_at : option Z
}.

(** A row of [graph_edges] without its primary key
    [(source_entity_id, target_entity_id, chunk_id)]. *)
Record EdgeRow := {
  relation_type : string;
  weight : Q                       (* REAL DEFAULT 1.0; the code writes 1.0 only *)
}.

(** The database.  [files] and [vec_chunks] are in rowid order; the
    sequences are the counters the ids come from (the last id handed out):
    AUTOINCREMENT for [files] and [entities], the rowid sequence of the vec0
    table for [vec_chunks], so that a chunk id is never handed out twice.
    [entities] maps the UNIQUE key [(name, entity_type, chunk_id)] to the id of
    the row; [graph_edges] and [chunk_graph_state] are keyed by their primary
    keys. *)
Record DB := {
  embeddingDim : Z;
  files : list FileRow;
  files_seq : Z;
  vec_chunks : list ChunkRow;
  vec_chunks_seq : Z;
  entities : gmap (string * string * Z) Z;
  entities_seq : Z;
  graph_edges : gmap (Z * Z * Z) EdgeRow;
  chunk_graph_state : gmap Z GraphStateRow
}.

Definition set_files (f : list FileRow -> list FileRow) (d : DB) : DB :=
  {| embeddingDim := embeddingDim d; files := f (files d); files_seq := files_seq d;
     vec_chunks := vec_chunks d; vec_chunks_seq := vec_chunks_seq d;
     entities := entities d; entities_seq := entities_seq d;
     graph_edges := graph_edges d; chunk_graph_state := chunk_graph_state d |}.

Definition set_vec_chunks (f : list ChunkRow -> list ChunkRow) (d : DB) : DB :=
  {| embeddingDim := embeddingDim d; files := files d; files_seq := files_seq d;
     vec_chunks := f (vec_chunks d); vec_chunks_seq := vec_chunks_seq d;
     entities := entities d; entities_seq := entities_seq d;
     graph_edges := graph_edges d; chunk_graph_state := chunk_graph_state d |}.

Definition set_graph_edges (f : gmap (Z * Z * Z) EdgeRow -> gmap (Z * Z * Z) EdgeRow)
    (d : DB) : DB :=
  {| embeddingDim := embeddingDim d; files := files d; files_seq := files_seq d;
     vec_chunks := vec_chunks d; vec_chunks_seq := vec_chunks_seq d;
     entities := entities d; entities_seq := entities_seq d;
     graph_edges := f (graph_edges d); chunk_graph_state := chunk_graph_state d |}.

Definition set_chunk_graph_state (f : gmap Z GraphStateRow -> gmap Z GraphStateRow)
    (d : DB) : DB :=
  {| embeddingDim := embeddingDim d; files := files d; files_seq := files_seq d;
     vec_chunks := vec_chunks d; vec_chunks_seq := vec_chunks_seq d;
     entities := entities d; entities_seq := entities_seq d;
     graph_edges := graph_edges d; chunk_graph_state := f (chunk_graph_state d) |}.

(** *** Go structs *)

Record File := {
  ID : Z;
  Path : string;
  LastModTime : Z;
  ContentHash : string;
  IndexedAt : Z;
  Status : string;
  ErrorMessage : string;
  RetryCount : Z;
  QueuedAt : option Z
}.

Record Chunk := {
  ChunkID : Z;
  FileID : Z;
  ContentSnippet : string;
  Embedding : list float32;
  StartLine : Z;
  EndLine : Z
}.

Record ChunkWithPath := {
  CP_ChunkID : Z;
  CP_FileID : Z;
  CP_FilePath : string;
  CP_ContentSnippet : string;
  CP_StartLine : Z;
  CP_EndLine : Z
}.

Record RelatedChunk := {
  Rel_Chunk : option Chunk;   (* *Chunk, nil when the chunk row is gone *)
  Rel_RelationType : string;
  Rel_Weight : Q;
  Rel_Depth : Z
}.

Record SearchResult := {
  Res_Chunk : Chunk;
  Distance : float64;          (* cosine distance (lower is more similar) *)
  RelatedChunks : list RelatedChunk
}.

Record GetNeighborsOptions := {
  Opt_ChunkID : Z;
  Opt_MaxDepth : Z;
  Opt_MinWeight : Q;
  Opt_Limit : Z
}.

Record Neighbor := {
  N_ChunkID : Z;
  N_Depth : Z;
  N_TotalWeight : Q;
  N_RelationType : string
}.

(** *** File registry and work queue ([files.go]) *)

(** [LIMIT n]: a negative [n] is no limit in SQLite. *)
Definition sqlLimit {A} (n : Z) (rows : list A) : list A :=
  if n <? 0 then rows else take (Z.to_nat n) rows.

Definition findFile (p : string) (d : DB) : option FileRow :=
  List.find (fun f => String.eqb (path f) p) (files d).

(** [INSERT ... ON CONFLICT(path) DO UPDATE SET ...]: [upd] is the update of
    the row in conflict, [new] builds the inserted row from its fresh id. *)
Definition upsertByPath (p : string) (upd : FileRow -> FileRow) (new : Z -> FileRow)
    (d : DB) : DB :=
  match findFile p d with
  | Some _ =>
      set_files (fmap (fun f => if String.eqb (path f) p then upd f else f)) d
  | None =>
      let i := files_seq d + 1 in
      {| embeddingDim := embeddingDim d; files := files d ++ [ new i ]; files_seq := i;
         vec_chunks := vec_chunks d; vec_chunks_seq := vec_chunks_seq d;
         entities := entities d; entities_seq := entities_seq d;
         graph_edges := graph_edges d; chunk_graph_state := chunk_graph_state d |}
  end.

(** [UPDATE files SET ... WHERE id = ?] *)
Definition updateFileByID (fileID : Z) (upd : FileRow -> FileRow) (d : DB) : DB :=
  set_files (fmap (fun f => if id f =? fileID then upd f else f)) d.

Definition UpsertFile (p : string) (modTime : Z) (contentHash : string) (now : Z)
    (d : DB) : result Z * DB :=
  let d' :=
    upsertByPath p
      (fun f => {| id := id f; path := path f; last_mod_time := modTime;
                   content_hash := contentHash; indexed_at := now;
                   status := status f; error_message := error_message f;
                   retry_count := retry_count f; queued_at := queued_at f |})
      (fun i => {| id := i; path := p; last_mod_time := modTime;
                   content_hash := contentHash; indexed_at := now;
                   status := "indexed"; error_message := None;
                   retry_count := 0; queued_at := None |}) d in
  match findFile p d' with
  | Some f => (Ok (id f), d')
  | None => (Err "failed to get file ID: sql: no rows in result set", d')
  end.

(** [GetFile] and [GetFileByID] scan five columns only; the other fields of the
    struct keep their zero values. *)
Definition scanFile5 (f : FileRow) : File :=
  {| ID := id f; Path := path f; LastModTime := last_mod_time f;
     ContentHash := content_hash f; IndexedAt := indexed_at f;
     Status := ""; ErrorMessage := ""; RetryCount := 0; QueuedAt := None |}.

Definition GetFile (p : string) (d : DB) : result (option File) :=
  Ok (scanFile5 <$> findFile p d).

Definition GetFileByID (fileID : Z) (d : DB) : result (option File) :=
  Ok (scanFile5 <$> List.find (fun f => id f =? fileID) (files d)).

Definition HasFileChanged (p : string) (modTime : Z) (contentHash : string) (d : DB)
  : result bool :=
  file ← GetFile p d;
  match file with
  | None => Ok true
  | Some file =>
      Ok (negb (LastModTime file =? modTime) || negb (String.eqb (ContentHash file) contentHash))
  end.

Definition MarkFilePending (p : string) (modTime : Z) (contentHash : string) (now : Z)
    (d : DB) : DB :=
  upsertByPath p
    (fun f => {| id := id f; path := path f; last_mod_time := modTime;
                 content_hash := contentHash; indexed_at := indexed_at f;
                 status := "pending"; error_message := None;
                 retry_count := 0; queued_at := Some now |})
    (fun i => {| id := i; path := p; last_mod_time := modTime;
                 content_hash := contentHash; indexed_at := now;
                 status := "pending"; error_message := None;
                 retry_count := 0; queued_at := Some now |}) d.

(** [ORDER BY queued_at ASC]: NULL sorts first. *)
Definition queued_le (a b : FileRow) : Prop :=
  match queued_at a, queued_at b with
  | None, _ => True
  | Some _, None => False
  | Some x, Some y => x <= y
  end.

#[global] Instance queued_le_dec : RelDecision queued_le.
Proof.
  intros a b. unfold queued_le.
  destruct (queued_at a), (queued_at b); apply _.
Defined.

(** The scan of a row of [GetPendingFiles]: [queued_at] is read into a Go
    string, which fails on NULL. *)
Definition scanPending (f : FileRow) : result File :=
  match queued_at f with
  | None => Err "failed to scan file row: converting NULL to string is unsupported"
  | Some q =>
      Ok {| ID := id f; Path := path f; LastModTime := last_mod_time f;
            ContentHash := content_hash f; IndexedAt := indexed_at f;
            Status := status f; ErrorMessage := default "" (error_message f);
            RetryCount := retry_count f; QueuedAt := Some q |}
  end.

Fixpoint scanRows {A B} (scan : A -> result B) (rows : list A) : result (list B) :=
  match rows with
  | [] => Ok []
  | r :: rest => x ← scan r; xs ← scanRows scan rest; Ok (x :: xs)
  end.

Definition GetPendingFiles (limit : Z) (d : DB) : result (list File) :=
  let pending := List.filter (fun f => String.eqb (status f) "pending") (files d) in
  scanRows scanPending (sqlLimit limit (merge_sort queued_le pending)).

Definition MarkFileProcessing (fileID : Z) (d : DB) : DB :=
  updateFileByID fileID
    (fun f => {| id := id f; path := path f; last_mod_time := last_mod_time f;
                 content_hash := content_hash f; indexed_at := indexed_at f;
                 status := "processing"; error_message := error_message f;
                 retry_count := retry_count f; queued_at := queued_at f |}) d.

Definition MarkFileIndexed (fileID : Z) (now : Z) (d : DB) : DB :=
  updateFileByID fileID
    (fun f => {| id := id f; path := path f; last_mod_time := last_mod_time f;
                 content_hash := content_hash f; indexed_at := now;
                 status := "indexed"; error_message := None;
                 retry_count := 0; queued_at := queued_at f |}) d.

Definition MarkFileFailed (fileID : Z) (errorMsg : string) (retryCount : Z) (d : DB) : DB :=
  updateFileByID fileID
    (fun f => {| id := id f; path := path f; last_mod_time := last_mod_time f;
                 content_hash := content_hash f; indexed_at := indexed_at f;
                 status := "failed"; error_message := Some errorMsg;
                 retry_count := retryCount; queued_at := queued_at f |}) d.

(** *** Chunks and search ([chunks.go]) *)

Definition InsertChunk (fileID : Z) (contentSnippet : string) (emb : list float32)
    (startLine endLine : Z) (d : DB) : result Z * DB :=
  if negb (Z.of_nat (length emb) =? embeddingDim d) then
    (Err ("embedding dimension mismatch: expected " +:+ itoa (embeddingDim d) +:+
          ", got " +:+ itoa (Z.of_nat (length emb))), d)
  else
    let i := vec_chunks_seq d + 1 in
    (Ok i,
     {| embeddingDim := embeddingDim d; files := files d; files_seq := files_seq d;
        vec_chunks := vec_chunks d ++
          [ {| chunk_id := i; file_id := fileID; content_snippet := contentSnippet;
               start_line := startLine; end_line := endLine; embedding := emb |} ];
        vec_chunks_seq := i;
        entities := entities d; entities_seq := entities_seq d;
        graph_edges := graph_edges d; chunk_graph_state := chunk_graph_state d |}).

(** The scan of a chunk row; the embedding is dropped ([c.Embedding = nil]). *)
Definition scanChunk (c : ChunkRow) : Chunk :=
  {| ChunkID := chunk_id c; FileID := file_id c; ContentSnippet := content_snippet c;
     Embedding := []; StartLine := start_line c; EndLine := end_line c |}.

Definition GetChunk (chunkID : Z) (d : DB) : result (option Chunk) :=
  Ok (scanChunk <$> List.find (fun c => chunk_id c =? chunkID) (vec_chunks d)).

Definition DeleteChunksForFile (fileID : Z) (d : DB) : DB :=
  set_vec_chunks (List.filter (fun c => negb (file_id c =? fileID))) d.

(** [JOIN files f ON c.file_id = f.id] over the given rows, [key] giving the
    [file_id] of a row: [files.id] is the primary key, so a row joins with the
    file row of that id, if there is one. *)
Definition fileByID (fileID : Z) (d : DB) : option FileRow :=
  List.find (fun f => id f =? fileID) (files d).

Definition joinFiles {A} (key : A -> Z) (d : DB) (rows : list A) : list (A * FileRow) :=
  omap (fun r => pair r <$> fileByID (key r) d) rows.

(** The k-nearest-neighbour scan of the vec0 table
    ([embedding MATCH ? AND k = ?]): the [k] rows closest to the query, each
    with its distance. *)
Definition nearer (a b : ChunkRow * float64) : Prop := distance_le a.2 b.2.

#[global] Instance nearer_dec : RelDecision nearer.
Proof. intros a b. unfold nearer. apply _. Defined.

Definition knn (queryEmbedding : list float32) (k : Z) (d : DB)
  : list (ChunkRow * float64) :=
  take (Z.to_nat k)
    (merge_sort nearer
       ((fun c => (c, vec_distance_cosine (embedding c) queryEmbedding)) <$> vec_chunks d)).

Definition by_distance (a b : ChunkRow * float64 * FileRow) : Prop :=
  distance_le a.1.2 b.1.2.

#[global] Instance by_distance_dec : RelDecision by_distance.
Proof. intros a b. unfold by_distance. apply _. Defined.

Definition SearchSimilar (queryEmbedding : list float32) (limit : Z) (pathFilter : string)
    (d : DB) : result (list SearchResult) :=
  if negb (Z.of_nat (length queryEmbedding) =? embeddingDim d) then
    Err ("query embedding dimension mismatch: expected " +:+ itoa (embeddingDim d) +:+
         ", got " +:+ itoa (Z.of_nat (length queryEmbedding)))
  else
    let limit := if limit <=? 0 then 10 else limit in
    let hits : list (ChunkRow * float64 * FileRow) :=
      joinFiles (fun cd => file_id cd.1) d (knn queryEmbedding limit d) in
    let hits :=
      if negb (String.eqb pathFilter "")
      then List.filter (fun r => LIKE pathFilter (path r.2)) hits
      else hits in
    let rows := merge_sort by_distance hits in
    Ok ((fun r => {| Res_Chunk := scanChunk r.1.1; Distance := r.1.2;
                     RelatedChunks := [] |}) <$> rows).

(** [GetNeighbors] ([graph.go]): "Return empty - entities are the new model". *)
Definition GetNeighbors (opts : GetNeighborsOptions) (d : DB) : result (list Neighbor) :=
  Ok [].

(** The loop over the neighbours of one hit; [acc] is [result.RelatedChunks]. *)
Fixpoint relatedLoop (pathFilter : string) (d : DB) (neighbors : list Neighbor)
    (acc : list RelatedChunk) : result (list RelatedChunk) :=
  match neighbors with
  | [] => Ok acc
  | n :: rest =>
      match GetChunk (N_ChunkID n) d with
      | Err _ => relatedLoop pathFilter d rest acc
      | Panic m => Panic m
      | Ok chunk =>
          let keep :=
            relatedLoop pathFilter d rest
              (acc ++ [ {| Rel_Chunk := chunk; Rel_RelationType := N_RelationType n;
                           Rel_Weight := N_TotalWeight n; Rel_Depth := N_Depth n |} ]) in
          if negb (String.eqb pathFilter "") then
            match chunk with
            | None => Panic "invalid memory address or nil pointer dereference"
            | Some c =>
                match GetFileByID (FileID c) d with
                | Ok (Some file) =>
                    let prefix := TrimSuffix pathFilter "%" in
                    if negb (HasPrefix (Path file) prefix)
                    then relatedLoop pathFilter d rest acc
                    else keep
                | Panic m => Panic m
                | _ => relatedLoop pathFilter d rest acc
                end
            end
          else keep
      end
  end.

(** The loop over the hits. *)
Fixpoint relationsLoop (maxDepth : Z) (pathFilter : string) (d : DB)
    (results : list SearchResult) : result (list SearchResult) :=
  match results with
  | [] => Ok []
  | r :: rest =>
      r' ← match GetNeighbors {| Opt_ChunkID := ChunkID (Res_Chunk r);
                                 Opt_MaxDepth := maxDepth;
                                 Opt_MinWeight := 0; Opt_Limit := 5 |} d with
           | Ok neighbors =>
               related ← relatedLoop pathFilter d neighbors (RelatedChunks r);
               Ok {| Res_Chunk := Res_Chunk r; Distance := Distance r;
                     RelatedChunks := related |}
           | Err _ => Ok r
           | Panic m => Panic m
           end;
      rest' ← relationsLoop maxDepth pathFilter d rest;
      Ok (r' :: rest')
  end.

Definition SearchWithRelations (queryEmbedding : list float32) (limit maxDepth : Z)
    (pathFilter : string) (d : DB) : result (list SearchResult) :=
  results ← SearchSimilar queryEmbedding limit pathFilter d;
  relationsLoop maxDepth pathFilter d results.

Definition chunkWithPath (r : ChunkRow * FileRow) : ChunkWithPath :=
  {| CP_ChunkID := chunk_id r.1; CP_FileID := file_id r.1; CP_FilePath := path r.2;
     CP_ContentSnippet := content_snippet r.1;
     CP_StartLine := start_line r.1; CP_EndLine := end_line r.1 |}.

Definition by_chunk_id (a b : ChunkWithPath) : Prop := CP_ChunkID a <= CP_ChunkID b.

#[global] Instance by_chunk_id_dec : RelDecision by_chunk_id.
Proof. intros a b. unfold by_chunk_id. apply _. Defined.

(** [GetChunksByIDs]: the join restricted by [v.chunk_id IN (...)], then
    [ORDER BY v.chunk_id]. *)
Definition GetChunksByIDs (chunkIDs : list Z) (d : DB) : result (list ChunkWithPath) :=
  match chunkIDs with
  | [] => Ok []
  | _ =>
      let rows :=
        filter (fun r => chunk_id r.1 ∈ chunkIDs)
               (joinFiles file_id d (vec_chunks d)) in
      Ok (merge_sort by_chunk_id (chunkWithPath <$> rows))
  end.

(** *** Entities and edges ([graph.go]) *)

(** [INSERT OR IGNORE INTO entities ...], then the id of the row: the new one,
    or the one of the row already there. *)
Definition UpsertEntity (name entityType : string) (chunkID : Z) (d : DB)
  : result Z * DB :=
  match entities d !! (name, entityType, chunkID) with
  | Some i => (Ok i, d)
  | None =>
      let i := entities_seq d + 1 in
      (Ok i,
       {| embeddingDim := embeddingDim d; files := files d; files_seq := files_seq d;
          vec_chunks := vec_chunks d; vec_chunks_seq := vec_chunks_seq d;
          entities := <[ (name, entityType, chunkID) := i ]> (entities d);
          entities_seq := i;
          graph_edges := graph_edges d; chunk_graph_state := chunk_graph_state d |})
  end.

(** The ids of the rows of [entities]. *)
Definition entityIDs (d : DB) : gset Z := map_img (entities d).

(** [INSERT INTO graph_edges ... ON CONFLICT(source_entity_id,
    target_entity_id, chunk_id) DO UPDATE SET relation_type, weight]; the two
    foreign keys into [entities] are enforced. *)
Definition UpsertEntityEdge (sourceID targetID : Z) (relationType : string)
    (chunkID : Z) (d : DB) : result () * DB :=
  if bool_decide (sourceID ∈ entityIDs d /\ targetID ∈ entityIDs d) then
    (Ok (),
     set_graph_edges
       (insert (sourceID, targetID, chunkID)
               {| relation_type := relationType; weight := 1 |}) d)
  else (Err "failed to upsert entity edge: FOREIGN KEY constraint failed", d).

(** *** Extraction watermark ([graph_state.go]) *)

(** "Absence of a row is equivalent to extracted = false." *)
Definition isExtracted (chunkID : Z) (d : DB) : bool :=
  match chunk_graph_state d !! chunkID with
  | Some s => graph_extracted s
  | None => false
  end.

Definition rows_by_chunk_id (a b : ChunkRow) : Prop := chunk_id a <= chunk_id b.

#[global] Instance rows_by_chunk_id_dec : RelDecision rows_by_chunk_id.
Proof. intros a b. unfold rows_by_chunk_id. apply _. Defined.

Definition GetChunksNeedingGraphExtraction (limit : Z) (d : DB) : result (list Z) :=
  let rows := filter (fun v => isExtracted (chunk_id v) d = false) (vec_chunks d) in
  Ok (chunk_id <$> sqlLimit limit (merge_sort rows_by_chunk_id rows)).

(** [MarkChunksGraphExtracted]: one transaction, one timestamp; every
    statement is an upsert on the primary key, so none of them fails on the
    schema and the commit applies them all. *)
Definition MarkChunksGraphExtracted (chunkIDs : list Z) (now : Z) (d : DB) : DB :=
  match chunkIDs with
  | [] => d
  | _ =>
      set_chunk_graph_state
        (fun m => foldl (fun m chunkID =>
                           <[ chunkID := {| graph_extracted := true;
                                            extracted_at := Some now |} ]> m)
                        m chunkIDs) d
  end.

(** [GetGraphExtractionStats]: total, extracted, pending. *)
Definition GetGraphExtractionStats (d : DB) : result (Z * Z * Z) :=
  let total := Z.of_nat (length (vec_chunks d)) in
  let extracted :=
    Z.of_nat (length (filter (fun kv => graph_extracted kv.2 = true)
                             (map_to_list (chunk_graph_state d)))) in
  let pending := total - extracted in
  let pending := if pending <? 0 then 0 else pending in
  Ok (total, extracted, pending).

(** *** The rest of the file registry ([files.go]) *)

(** [ORDER BY path]: the column has the BINARY collation, which compares the
    bytes. *)
Definition path_le (a b : FileRow) : Prop := String.leb (path a) (path b) = true.

#[global] Instance path_le_dec : RelDecision path_le.
Proof. intros a b. unfold path_le. apply _. Defined.

Record ListFilesOptions := { Limit : Z; Offset : Z }.

(** [LIMIT n OFFSET k], for the [n > 0] of [ListFiles]: a negative offset is
    no offset in SQLite. *)
Definition ListFiles (opts : ListFilesOptions) (d : DB) : result (list File) :=
  let limit := if Limit opts <=? 0 then 100 else Limit opts in
  Ok (scanFile5 <$>
        sqlLimit limit (drop (Z.to_nat (Offset opts)) (merge_sort path_le (files d)))).

Definition CountFiles (d : DB) : result Z := Ok (Z.of_nat (length (files d))).

(** [DeleteFile]: no foreign key refers to [files] (the chunks live in a
    virtual table), so the statement removes the rows of that path and
    nothing else. *)
Definition DeleteFile (p : string) (d : DB) : result () * DB :=
  let rows := Z.of_nat (length (List.filter (fun f => String.eqb (path f) p) (files d))) in
  let d := set_files (List.filter (fun f => negb (String.eqb (path f) p))) d in
  if rows =? 0 then (Err ("file not found: " +:+ p), d) else (Ok (), d).

(** [ResetStuckProcessing]: [UPDATE files SET status = 'pending' WHERE status =
    'processing']. *)
Definition ResetStuckProcessing (d : DB) : DB :=
  set_files
    (fmap (fun f =>
             if String.eqb (status f) "processing" then
               {| id := id f; path := path f; last_mod_time := last_mod_time f;
                  content_hash := content_hash f; indexed_at := indexed_at f;
                  status := "pending"; error_message := error_message f;
                  retry_count := retry_count f; queued_at := queued_at f |}
             else f)) d.

(** [CountFilesByStatus]: one entry per group of [GROUP BY status], the
    status with its [COUNT]. *)
Definition CountFilesByStatus (d : DB) : result (gmap string Z) :=
  Ok (list_to_map
        ((fun s => (s, Z.of_nat (length (List.filter (fun f => String.eqb (status f) s)
                                                      (files d)))))
           <$> remove_dups (status <$> files d))).

(** *** The rest of the chunk operations ([chunks.go]) *)

Definition GetChunksForFile (fileID : Z) (d : DB) : result (list Chunk) :=
  Ok (scanChunk <$>
        merge_sort rows_by_chunk_id
          (List.filter (fun c => file_id c =? fileID) (vec_chunks d))).

Definition GetAllChunks (d : DB) : result (list Chunk) :=
  Ok (scanChunk <$> merge_sort rows_by_chunk_id (vec_chunks d)).

Definition GetAllChunksWithPaths (d : DB) : result (list ChunkWithPath) :=
  Ok (merge_sort by_chunk_id (chunkWithPath <$> joinFiles file_id d (vec_chunks d))).

Definition CountChunks (d : DB) : result Z := Ok (Z.of_nat (length (vec_chunks d))).

(** [GetChunkDistance]: the cross join of the two rows; without a row for
    one of the ids the scan fails and the distance reported is 2.0, which the
    caller gets beside the error ([inl]). *)
Definition GetChunkDistance (two : float64) (chunkA chunkB : Z) (d : DB)
  : float64 * string + float64 :=
  match List.find (fun c => chunk_id c =? chunkA) (vec_chunks d),
        List.find (fun c => chunk_id c =? chunkB) (vec_chunks d) with
  | Some a, Some b => inr (vec_distance_cosine (embedding a) (embedding b))
  | _, _ => inl (two, "failed to calculate distance: sql: no rows in result set")
  end.

(** *** The rest of the entity operations ([graph.go]) *)

Record Entity := {
  Ent_ID : Z;
  Ent_Name : string;
  Ent_EntityType : string;
  Ent_ChunkID : Z
}.

Record EntityEdge := {
  SourceEntityID : Z;
  TargetEntityID : Z;
  EE_RelationType : string;
  EE_ChunkID : Z;
  EE_Weight : Q
}.

(** The rows of [entities] and of [graph_edges].  The order in which SQLite
    returns the rows of a query without ORDER BY is not specified: the
    properties of the queries below speak of membership only. *)
Definition entityRows (d : DB) : list Entity :=
  (fun kv => {| Ent_ID := kv.2; Ent_Name := kv.1.1.1; Ent_EntityType := kv.1.1.2;
                Ent_ChunkID := kv.1.2 |}) <$> map_to_list (entities d).

Definition edgeRows (d : DB) : list EntityEdge :=
  (fun kv => {| SourceEntityID := kv.1.1.1; TargetEntityID := kv.1.1.2;
                EE_RelationType := relation_type kv.2; EE_ChunkID := kv.1.2;
                EE_Weight := weight kv.2 |}) <$> map_to_list (graph_edges d).

Definition GetEntityByName (name : string) (d : DB) : result (list Entity) :=
  Ok (List.filter (fun e => String.eqb (Ent_Name e) name) (entityRows d)).

Definition GetEntityEdges (entityID : Z) (d : DB) : result (list EntityEdge) :=
  Ok (List.filter (fun g => (SourceEntityID g =? entityID) || (TargetEntityID g =? entityID))
                  (edgeRows d)).

(** [FindRelatedEntities]: the entities on an edge with the given entity,
    the entity itself left out; [SELECT DISTINCT] over the join gives each
    such row of [entities] once. *)
Definition FindRelatedEntities (entityID : Z) (relationType : string) (d : DB)
  : result (list Entity) :=
  Ok (List.filter
        (fun e =>
           negb (Ent_ID e =? entityID) &&
           existsb (fun g =>
                      ((SourceEntityID g =? Ent_ID e) || (TargetEntityID g =? Ent_ID e))
                      && ((SourceEntityID g =? entityID) || (TargetEntityID g =? entityID))
                      && (String.eqb relationType ""
                          || String.eqb (EE_RelationType g) relationType))
                   (edgeRows d))
        (entityRows d)).

Definition DeleteEdgesForChunk (chunkID : Z) (d : DB) : DB :=
  set_graph_edges (filter (fun kv => kv.1.2 <> chunkID)) d.

Definition CountEdges (d : DB) : result Z := Ok (Z.of_nat (size (graph_edges d))).

(** *** Vocabulary of the properties of the store *)

(** The work queue is readable: a row waiting in the queue or taken from it
    has a queueing time. *)
Definition rowReadable (f : FileRow) : Prop :=
  status f = "pending" \/ status f = "processing" -> queued_at f <> None.

Definition queueReadable (d : DB) : Prop :=
  forall f, f ∈ files d -> rowReadable f.

(** The order of the queue: both files have a queueing time, the first one
    not later than the second. *)
Definition queuedBefore (a b : File) : Prop :=
  exists x y, QueuedAt a = Some x /\ QueuedAt b = Some y /\ x <= y.

(** The rows the query of [GetPendingFiles] selects. *)
Definition pendingRows (limit : Z) (d : DB) : list FileRow :=
  sqlLimit limit
    (merge_sort queued_le (List.filter (fun f => String.eqb (status f) "pending") (files d))).

(** The four states of the work queue. *)
Definition knownStatus (s : string) : Prop :=
  s = "indexed" \/ s = "pending" \/ s = "processing" \/ s = "failed".

(** The number of rows of [files] in a state. *)
Definition filesIn (s : string) (d : DB) : Z :=
  Z.of_nat (length (List.filter (fun f => String.eqb (status f) s) (files d))).

(** The sequences are ahead of the ids handed out, and the watermark table
    speaks of ids handed out only. *)
Definition chunkIDsFresh (d : DB) : Prop :=
  (forall c, c ∈ vec_chunks d -> chunk_id c <= vec_chunks_seq d)
  /\ (forall i s, chunk_graph_state d !! i = Some s -> i <= vec_chunks_seq d).

(** The ids of [entities] come from the sequence and are the primary key:
    no id is ahead of the sequence and no two rows share one. *)
Definition entitiesWellKeyed (d : DB) : Prop :=
  (forall k i, entities d !! k = Some i -> i <= entities_seq d)
  /\ (forall k1 k2 i, entities d !! k1 = Some i -> entities d !! k2 = Some i -> k1 = k2).

(** The two foreign keys of [graph_edges] hold. *)
Definition edgesReferEntities (d : DB) : Prop :=
  forall s t c r, graph_edges d !! (s, t, c) = Some r ->
                  s ∈ entityIDs d /\ t ∈ entityIDs d.

End Store.
End db.

(** ** Package [indexer] *)

Module indexer.
Import strings llm db.

Record Config := {
  ChunkSize : Z;
  ChunkOverlap : Z;
  EmbedModel : string;
  GraphModel : string;
  BatchSize : Z;        (* embedding batch size (chunks per embedding call) *)
  GraphBatchSize : Z;   (* graph extraction batch size (chunks per LLM call) *)
  MaxConcurrency : Z;
  EnableGraphMode : bool;
  MinChunkSize : Z;
  MaxChunkSize : Z;
  GraphDistanceThreshold : Q
}.

Definition DefaultConfig : Config :=
  {| ChunkSize := 512; ChunkOverlap := 64;
     EmbedModel := "nomic-embed-text"; GraphModel := "qwen2.5:3b";
     BatchSize := 20; GraphBatchSize := 100; MaxConcurrency := 5;
     EnableGraphMode := true; MinChunkSize := 10; MaxChunkSize := 4096;
     GraphDistanceThreshold := 1 # 2 |}.

(** The interface [llm.GraphExtractor], as the value the indexer holds. *)
Record GraphExtractor := {
  ExtractEdges : string -> string -> result (list llm.Edge);
  ExtractEdgesBatch : string -> list ChunkInput -> result (list EdgeWithMetadata)
}.

Section Graph.
Context `{SqliteVec}.

(** [dbChunks[i:j]] for [0 <= i <= j <= len(dbChunks)] *)
Definition slice {A} (l : list A) (i j : Z) : list A :=
  take (Z.to_nat (j - i)) (drop (Z.to_nat i) l).

Definition toChunkInput (chunk : ChunkWithPath) : ChunkInput :=
  {| In_ChunkID := CP_ChunkID chunk; In_FileID := CP_FileID chunk;
     In_FilePath := CP_FilePath chunk; In_Content := CP_ContentSnippet chunk |}.

(** The body of the loop over the edges of one reply; the boolean says whether
    the edge was stored (and counted). *)
Definition storeEdge (edgeWithMeta : EdgeWithMetadata) (d : DB) : bool * DB :=
  let e := E_Edge edgeWithMeta in
  match UpsertEntity (Source e) (SourceType e) (E_ChunkID edgeWithMeta) d with
  | (Ok sourceID, d) =>
      match UpsertEntity (Target e) (TargetType e) (E_ChunkID edgeWithMeta) d with
      | (Ok targetID, d) =>
          match UpsertEntityEdge sourceID targetID (RelationType e)
                                 (E_ChunkID edgeWithMeta) d with
          | (Ok _, d) => (true, d)
          | (_, d) => (false, d)
          end
      | (_, d) => (false, d)
      end
  | (_, d) => (false, d)
  end.

Fixpoint storeEdges (edges : list EdgeWithMetadata) (totalEdges : Z) (d : DB) : Z * DB :=
  match edges with
  | [] => (totalEdges, d)
  | e :: rest =>
      let '(stored, d) := storeEdge e d in
      storeEdges rest (if stored then totalEdges + 1 else totalEdges) d
  end.

(** The loop [for i := 0; i < len(dbChunks); i += batchSize].  It runs at
    most [len(dbChunks)] times when [batchSize >= 1]; [fuel] bounds the number
    of tests of the loop condition. *)
Fixpoint batchLoop (fuel : nat) (cfg : Config) (graphClient : GraphExtractor)
    (dbChunks : list ChunkWithPath) (batchSize : Z)
    (i batchNum totalEdges : Z) (d : DB) : Z * result () * DB :=
  match fuel with
  | O => (totalEdges, Panic "batch loop: out of fuel", d)
  | S fuel =>
      if i <? Z.of_nat (length dbChunks) then
        let batchNum := batchNum + 1 in
        let end_ := i + batchSize in
        let end_ := if end_ >? Z.of_nat (length dbChunks)
                    then Z.of_nat (length dbChunks) else end_ in
        let batchChunks := slice dbChunks i end_ in
        let llmChunks := toChunkInput <$> batchChunks in
        match ExtractEdgesBatch graphClient (GraphModel cfg) llmChunks with
        | Err err => (totalEdges, Err ("batch " +:+ itoa batchNum +:+ ": " +:+ err), d)
        | Panic m => (totalEdges, Panic m, d)
        | Ok edges =>
            let '(totalEdges, d) := storeEdges edges totalEdges d in
            batchLoop fuel cfg graphClient dbChunks batchSize
                      (i + batchSize) batchNum totalEdges d
        end
      else (totalEdges, Ok (), d)
  end.

(** The size of the sub-batches for [n] fetched chunks. *)
Definition llmBatchSize (cfg : Config) (n : Z) : Z :=
  let batchSize := GraphBatchSize cfg in
  let batchSize := if batchSize <=? 0 then 100 else batchSize in
  if batchSize >? n then n else batchSize.

(** [ProcessGraphBatch] returns the number of edges stored and the error. *)
Definition ProcessGraphBatch (cfg : Config) (graphClient : GraphExtractor)
    (chunkIDs : list Z) (d : DB) : Z * result () * DB :=
  match chunkIDs with
  | [] => (0, Ok (), d)
  | _ =>
      match GetChunksByIDs chunkIDs d with
      | Err err => (0, Err ("failed to get chunks: " +:+ err), d)
      | Panic m => (0, Panic m, d)
      | Ok [] => (0, Ok (), d)
      | Ok dbChunks =>
          batchLoop (S (length dbChunks)) cfg graphClient dbChunks
                    (llmBatchSize cfg (Z.of_nat (length dbChunks))) 0 0 0 d
      end
  end.

(** [GraphWorker.processChunks]: one poll of the graph worker, [batchSize] the
    number of chunk ids fetched per poll and [now] the time of the marking.
    A panic of the extractor ends the worker and leaves the store as it is at
    that point. *)
Definition processChunks (cfg : Config) (graphClient : GraphExtractor)
    (batchSize : Z) (now : Z) (d : DB) : DB :=
  match GetChunksNeedingGraphExtraction batchSize d with
  | Ok [] => d
  | Ok chunkIDs =>
      match ProcessGraphBatch cfg graphClient chunkIDs d with
      | (_, Ok _, d) => MarkChunksGraphExtracted chunkIDs now d
      | (_, _, d) => d (* "Don't mark as extracted if it failed" *)
      end
  | _ => d
  end.

(** Vocabulary of the properties: the provider calls one poll makes when none
    of them fails, that is the inputs of the sub-batches, in order. *)
Fixpoint subBatches {A} (fuel : nat) (n : nat) (l : list A) : list (list A) :=
  match fuel, l with
  | S fuel, _ :: _ => take n l :: subBatches fuel n (drop n l)
  | _, _ => []
  end.

Definition graphBatches (cfg : Config) (chunkIDs : list Z) (d : DB)
  : list (list ChunkInput) :=
  match GetChunksByIDs chunkIDs d with
  | Ok dbChunks =>
      (fun batch : list ChunkWithPath => toChunkInput <$> batch) <$>
        subBatches (length dbChunks)
                   (Z.to_nat (llmBatchSize cfg (Z.of_nat (length dbChunks)))) dbChunks
  | _ => []
  end.

(** The store after the replies to the given calls have been stored. *)
Definition storeReplies (cfg : Config) (graphClient : GraphExtractor)
    (calls : list (list ChunkInput)) (d : DB) : DB :=
  foldl (fun d call =>
           match ExtractEdgesBatch graphClient (GraphModel cfg) call with
           | Ok edges => (storeEdges edges 0 d).2
           | _ => d
           end) d calls.

(** Vocabulary of the properties of the edge store. *)

(** The columns an edge of a reply touches. *)
Definition srcKey (e : EdgeWithMetadata) : string * string * Z :=
  (Source (E_Edge e), SourceType (E_Edge e), E_ChunkID e).
Definition tgtKey (e : EdgeWithMetadata) : string * string * Z :=
  (Target (E_Edge e), TargetType (E_Edge e), E_ChunkID e).
Definition rowOf (e : EdgeWithMetadata) : EdgeRow :=
  {| relation_type := RelationType (E_Edge e); weight := 1 |}.
Definition edgeKey (ents : gmap (string * string * Z) Z) (e : EdgeWithMetadata)
  : Z * Z * Z :=
  (default 0 (ents !! srcKey e), default 0 (ents !! tgtKey e), E_ChunkID e).
Definition putEdge (ents : gmap (string * string * Z) Z)
    (m : gmap (Z * Z * Z) EdgeRow) (e : EdgeWithMetadata) : gmap (Z * Z * Z) EdgeRow :=
  <[ edgeKey ents e := rowOf e ]> m.

(** The tables the graph worker does not write while it stores edges. *)
Definition otherTables (d : DB) :=
  (embeddingDim d, files d, files_seq d, vec_chunks d, vec_chunks_seq d,
   chunk_graph_state d).

(** The provider inputs of the sub-batches of the chunks [rem] still to do. *)
Definition callsFrom (n : nat) (rem : list ChunkWithPath) : list (list ChunkInput) :=
  (fun batch : list ChunkWithPath => toChunkInput <$> batch)
    <$> subBatches (length rem) n rem.

Definition callOk (cfg : Config) (graphClient : GraphExtractor) (call : list ChunkInput)
  : Prop :=
  is_Ok (ExtractEdgesBatch graphClient (GraphModel cfg) call) = true.

(** The store [d] has grown from [d0] by graph extraction: the tables of the
    files, the chunks and the marks are the same, the entities and the edge
    keys of [d0] are still there, and the keys of the two tables are sound. *)
Definition grownFrom (d0 d : DB) : Prop :=
  otherTables d = otherTables d0
  /\ entities d0 ⊆ entities d
  /\ (forall k, is_Some (graph_edges d0 !! k) -> is_Some (graph_edges d !! k))
  /\ entitiesWellKeyed d
  /\ edgesReferEntities d.

End Graph.

(** *** Chunking *)

(** Go's [int] is 64 bits wide: sums and differences wrap around. *)
Definition wrap64 (z : Z) : Z := (z + 2 ^ 63) mod 2 ^ 64 - 2 ^ 63.
Definition addI (a b : Z) : Z := wrap64 (a + b).
Definition subI (a b : Z) : Z := wrap64 (a - b).

(** [min] of the package *)
Definition min (a b : Z) : Z := if a <? b then a else b.

(** [indexer.Chunk]: a text chunk ready for embedding. *)
Record Chunk := {
  Ck_FileID : Z;
  Ck_FilePath : string;
  Ck_Content : string;
  Ck_StartOffset : Z;
  Ck_EndOffset : Z;
  Ck_StartLine : Z;
  Ck_EndLine : Z
}.

Definition newline : ascii := ascii_of_nat 10.

(** [countLines]: the number of newlines in a byte slice. *)
Fixpoint countLines (data : string) : Z :=
  match data with
  | EmptyString => 0
  | String b rest => (if Ascii.eqb b newline then 1 else 0) + countLines rest
  end.

(** [contentBytes[i]]; [None] is the index-out-of-range panic. *)
Definition byteAt (content : string) (i : Z) : option ascii :=
  if i <? 0 then None else String.get (Z.to_nat i) content.

(** [contentBytes[i:j]]; [None] is the slice-bounds panic. *)
Definition bytes (content : string) (i j : Z) : option string :=
  if (0 <=? i) && (i <=? j) && (j <=? len content)
  then Some (take_str (Z.to_nat (j - i)) (drop_str (Z.to_nat i) content))
  else None.

(** [for offset < contentLen && contentBytes[offset] != '\n' { offset++ }];
    the loop runs at most [len(content)] times. *)
Fixpoint skipToNewline (fuel : nat) (content : string) (offset : Z) : option Z :=
  if negb (offset <? len content) then Some offset
  else
    b ← byteAt content offset;
    if Ascii.eqb b newline then Some offset
    else match fuel with
         | O => None
         | S fuel => skipToNewline fuel content (addI offset 1)
         end.

(** [for end > offset && contentBytes[end-1] != '\n' { end-- }] *)
Fixpoint backToNewline (fuel : nat) (content : string) (offset end_ : Z) : option Z :=
  if negb (end_ >? offset) then Some end_
  else
    b ← byteAt content (subI end_ 1);
    if Ascii.eqb b newline then Some end_
    else match fuel with
         | O => None
         | S fuel => backToNewline fuel content offset (subI end_ 1)
         end.

(** The sliding-window loop of [chunkContent].  [None]: the run does not
    return a chunk list, because of a panic or because the loop is still
    running after [fuel] rounds. *)
Fixpoint chunkLoop (fuel : nat) (cfg : Config) (content : string) (fileID : Z)
    (filePath : string) (stride : Z) (offset : Z) (chunks : list Chunk)
  : option (list Chunk) :=
  let contentLen := len content in
  if negb (offset <? contentLen) then Some chunks
  else
    match fuel with
    | O => None
    | S fuel =>
        let end_ := min (addI offset (ChunkSize cfg)) contentLen in
        let end_ := if subI end_ offset >? MaxChunkSize cfg
                    then addI offset (MaxChunkSize cfg) else end_ in
        (* Align to line boundaries *)
        offset ←
          (if offset >? 0 then
             o ← skipToNewline (String.length content) content offset;
             Some (if o <? contentLen then addI o 1 else o)
           else Some offset);
        end_ ←
          (if end_ <? contentLen
           then backToNewline (String.length content) content offset end_
           else Some end_);
        if end_ <=? offset then
          (* Skip if too small after alignment *)
          chunkLoop fuel cfg content fileID filePath stride
                    (addI offset (min stride 100)) chunks
        else
          chunkBytes ← bytes content offset end_;
          chunks ←
            (if len chunkBytes >=? MinChunkSize cfg then
               (* Calculate line numbers from byte offsets *)
               head ← bytes content 0 offset;
               upto ← bytes content 0 end_;
               Some (chunks ++ [ {| Ck_FileID := fileID; Ck_FilePath := filePath;
                                    Ck_Content := chunkBytes;
                                    Ck_StartOffset := offset; Ck_EndOffset := end_;
                                    Ck_StartLine := addI (countLines head) 1;
                                    Ck_EndLine := countLines upto |} ])
             else Some chunks);
          let offset := addI offset stride in
          if end_ >=? contentLen then Some chunks
          else chunkLoop fuel cfg content fileID filePath stride offset chunks
    end.

(** [chunkContent]: every round of the loop moves the offset forward by at
    least one byte when the stride is positive, so [len(content) + 1] rounds
    are enough then. *)
Definition chunkContent (cfg : Config) (content : string) (fileID : Z)
    (filePath : string) : option (list Chunk) :=
  let contentLen := len content in
  if contentLen <? MinChunkSize cfg then Some []
  else if contentLen <=? ChunkSize cfg then
    Some [ {| Ck_FileID := fileID; Ck_FilePath := filePath; Ck_Content := content;
              Ck_StartOffset := 0; Ck_EndOffset := contentLen;
              Ck_StartLine := 1; Ck_EndLine := countLines content |} ]
  else
    let stride := subI (ChunkSize cfg) (ChunkOverlap cfg) in
    let stride := if stride <=? 0 then ChunkSize cfg else stride in
    chunkLoop (S (String.length content)) cfg content fileID filePath stride 0 [].

(** What the chunker records with a chunk: its content is the slice of the
    content between its two offsets, it is at least [MinChunkSize] bytes long,
    its start line is one more than the number of newlines before the start
    offset and its end line is the number of newlines before the end offset. *)
Definition chunkRecordOk (cfg : Config) (content : string) (c : Chunk) : Prop :=
  MinChunkSize cfg <= len (Ck_Content c)
  /\ bytes content (Ck_StartOffset c) (Ck_EndOffset c) = Some (Ck_Content c)
  /\ (exists head, bytes content 0 (Ck_StartOffset c) = Some head
                   /\ Ck_StartLine c = addI (countLines head) 1)
  /\ (exists upto, bytes content 0 (Ck_EndOffset c) = Some upto
                   /\ Ck_EndLine c = countLines upto).

(** Configurations and contents for which the 64-bit arithmetic of the
    chunker does not wrap around: a positive chunk size, and sizes and
    content length far below the range of an [int]. *)
Definition validConfig (cfg : Config) : Prop :=
  0 < ChunkSize cfg < 2 ^ 61
  /\ - 2 ^ 61 < ChunkOverlap cfg < 2 ^ 61
  /\ - 2 ^ 61 < MaxChunkSize cfg < 2 ^ 61.

(** *** Indexing one file *)

(** What the indexer reads from the operating system and the standard
    library: the SHA-256 digest in lowercase hex and the content sniffing of
    [net/http]. *)
Class Platform := {
  sha256_hex : string -> string;
  DetectContentType : string -> string
}.

(** A regular file: its bytes and its modification time (Unix seconds). *)
Record FsFile := { fs_content : string; fs_modTime : Z }.

(** The interface [llm.EmbeddingProvider]: model, texts, concurrency. *)
Record EmbeddingProvider `{SqliteVec} := {
  Embed : string -> list string -> Z -> result (list (list float32))
}.

Section Index.
Context `{SqliteVec} `{Platform}.

(** The state the embedding worker runs in: the store, the log of the calls
    made to the embedding provider (the texts of each call) and the clock;
    [time.Now()] reads the clock, which advances by one at each reading. *)
Record World := {
  w_db : DB;
  w_embedCalls : list (list string);
  w_clock : Z
}.

Definition withDB (f : DB -> DB) (w : World) : World :=
  {| w_db := f (w_db w); w_embedCalls := w_embedCalls w; w_clock := w_clock w |}.

Definition tick (w : World) : Z * World :=
  (w_clock w,
   {| w_db := w_db w; w_embedCalls := w_embedCalls w; w_clock := w_clock w + 1 |}).

Definition noSuchFile (op path : string) : string :=
  op +:+ " " +:+ path +:+ ": no such file or directory".

(** [isBinaryFile]: sniffs the first 512 bytes. *)
Definition isBinaryFile (fs : gmap string FsFile) (path : string) : result bool :=
  match fs !! path with
  | None => Err (noSuchFile "open" path)
  | Some f =>
      let contentType := DetectContentType (take_str 512 (fs_content f)) in
      if HasPrefix contentType "application/" then
        Ok (negb (existsb (Contains contentType)
                          [ "json"; "xml"; "javascript"; "x-sh"; "x-perl"; "x-python" ]))
      else Ok (negb (HasPrefix contentType "text/"))
  end.

(** The loop of [Indexer.processBatch] over the chunks of a batch. *)
Fixpoint insertLoop (chunks : list Chunk) (embeddings : list (list float32)) (i : nat)
    (d : DB) : result () * DB :=
  match chunks with
  | [] => (Ok (), d)
  | chunk :: rest =>
      match embeddings !! i with
      | None => (Panic "index out of range", d)
      | Some emb =>
          match InsertChunk (Ck_FileID chunk) (Ck_Content chunk) emb
                            (Ck_StartLine chunk) (Ck_EndLine chunk) d with
          | (Ok _, d) => insertLoop rest embeddings (S i) d
          | (Err err, d) => (Err ("failed to insert chunk: " +:+ err), d)
          | (Panic m, d) => (Panic m, d)
          end
      end
  end.

(** [Indexer.processBatch]: one call to the provider, then the inserts. *)
Definition processBatch (cfg : Config) (ollama : EmbeddingProvider)
    (chunks : list Chunk) (fileID : Z) (w : World) : result () * World :=
  let texts := Ck_Content <$> chunks in
  let w := {| w_db := w_db w; w_embedCalls := w_embedCalls w ++ [ texts ];
              w_clock := w_clock w |} in
  match Embed ollama (EmbedModel cfg) texts 5 with
  | Err err => (Err ("failed to generate embeddings: " +:+ err), w)
  | Panic m => (Panic m, w)
  | Ok embeddings =>
      let '(r, d) := insertLoop chunks embeddings 0 (w_db w) in
      (r, withDB (fun _ => d) w)
  end.

(** The loop [for i := 0; i < len(chunks); i += idx.config.BatchSize]. *)
Fixpoint embedLoop (fuel : nat) (cfg : Config) (ollama : EmbeddingProvider)
    (chunks : list Chunk) (fileID : Z) (i : Z) (w : World) : result () * World :=
  if negb (i <? Z.of_nat (length chunks)) then (Ok (), w)
  else
    match fuel with
    | O => (Panic "embedding loop: out of fuel", w)
    | S fuel =>
        let end_ := min (addI i (BatchSize cfg)) (Z.of_nat (length chunks)) in
        if (end_ <? i) || (i <? 0) then (Panic "slice bounds out of range", w)
        else
          match processBatch cfg ollama (slice chunks i end_) fileID w with
          | (Ok _, w) => embedLoop fuel cfg ollama chunks fileID (addI i (BatchSize cfg)) w
          | (Err err, w) => (Err ("failed to process batch: " +:+ err), w)
          | (Panic m, w) => (Panic m, w)
          end
    end.

(** [Indexer.IndexFile] *)
Definition IndexFile (cfg : Config) (ollama : EmbeddingProvider)
    (fs : gmap string FsFile) (filePath : string) (w : World) : result () * World :=
  match isBinaryFile fs filePath with
  | Err err => (Err ("failed to check file type: " +:+ err), w)
  | Panic m => (Panic m, w)
  | Ok true => (Ok (), w)
  | Ok false =>
      match fs !! filePath with
      | None => (Err ("failed to read file: " +:+ noSuchFile "open" filePath), w)
      | Some f =>
          let content := fs_content f in
          let hash := sha256_hex content in
          let modTime := fs_modTime f in
          let '(now, w) := tick w in
          match UpsertFile filePath modTime hash now (w_db w) with
          | (Err err, d) => (Err ("failed to upsert file: " +:+ err), withDB (fun _ => d) w)
          | (Panic m, d) => (Panic m, withDB (fun _ => d) w)
          | (Ok fileID, d) =>
              let w := withDB (fun _ => DeleteChunksForFile fileID d) w in
              match chunkContent cfg content fileID filePath with
              | None => (Panic "chunkContent", w)
              | Some [] => (Ok (), w)
              | Some chunks =>
                  embedLoop (S (length chunks)) cfg ollama chunks fileID 0 w
              end
          end
      end
  end.

End Index.
End indexer.

(** ** Package [worker]: the embedding worker *)

Module worker.
Import strings db indexer.

Record Config := {
  PollInterval : Z; (* nanoseconds *)
  BatchSize : Z;
  MaxRetries : Z
}.

Record IndexWorker := {
  pollInterval : Z;
  batchSize : Z;
  maxRetries : Z
}.

Definition NewIndexWorker (cfg : Config) : IndexWorker :=
  {| pollInterval := if PollInterval cfg =? 0 then 5 * 1000000000 else PollInterval cfg;
     batchSize := if BatchSize cfg =? 0 then 10 else BatchSize cfg;
     maxRetries := if MaxRetries cfg =? 0 then 3 else MaxRetries cfg |}.

Section Worker.
Context `{SqliteVec} `{Platform}.

(** [handleFailure]: the retry count is the one read from the row plus one. *)
Definition handleFailure (w : IndexWorker) (file : File) (indexErr : string)
    (st : World) : World :=
  let retryCount := addI (RetryCount file) 1 in
  if retryCount >=? maxRetries w then
    (* Permanent failure *)
    withDB (MarkFileFailed (ID file) indexErr retryCount) st
  else
    (* Re-queue for retry *)
    let '(now, st) := tick st in
    withDB (MarkFilePending (Path file) (LastModTime file) (ContentHash file) now) st.

(** [processFile]; a panic of the indexer ends the worker and leaves the
    state as it is at that point. *)
Definition processFile (w : IndexWorker) (icfg : indexer.Config)
    (ollama : EmbeddingProvider) (fs : gmap string FsFile) (file : File)
    (st : World) : World :=
  let st := withDB (MarkFileProcessing (ID file)) st in
  match IndexFile icfg ollama fs (Path file) st with
  | (Err err, st) => handleFailure w file err st
  | (Panic _, st) => st
  | (Ok _, st) =>
      let '(now, st) := tick st in
      withDB (MarkFileIndexed (ID file) now) st
  end.

(** [processBatch]: one poll of the worker. *)
Definition processBatch (w : IndexWorker) (icfg : indexer.Config)
    (ollama : EmbeddingProvider) (fs : gmap string FsFile) (st : World) : World :=
  match GetPendingFiles (batchSize w) (w_db st) with
  | Ok files => foldl (fun st file => processFile w icfg ollama fs file st) st files
  | _ => st
  end.

(** [n] polls in a row. *)
Fixpoint polls (n : nat) (w : IndexWorker) (icfg : indexer.Config)
    (ollama : EmbeddingProvider) (fs : gmap string FsFile) (st : World) : World :=
  match n with
  | O => st
  | S n => polls n w icfg ollama fs (processBatch w icfg ollama fs st)
  end.

End Worker.
End worker.

(** ** Command [chainsaw index]: admission *)

Module main.
Import strings db indexer.

Section Admission.
Context `{SqliteVec} `{Platform} `{filter.Filepath}.

(** [queueFile]: "Queue for indexing - let the worker decide if it needs
    re-indexing". *)
Definition queueFile (fs : gmap string FsFile) (path : string) (st : World)
  : result () * World :=
  match filter.Abs path with
  | Err err => (Err ("failed to get absolute path: " +:+ err), st)
  | Panic m => (Panic m, st)
  | Ok absPath =>
      match fs !! absPath with
      | None => (Err ("failed to read file: " +:+ noSuchFile "open" absPath), st)
      | Some f =>
          let hash := sha256_hex (fs_content f) in
          let modTime := fs_modTime f in
          let '(now, st) := tick st in
          (Ok (), withDB (MarkFilePending absPath modTime hash now) st)
      end
  end.

End Admission.
End main.

(** * Stand-ins for the external packages, and sample data *)

Module samples.
Import strings llm db indexer worker main.

(** A stand-in regular-expression engine for concrete runs: a pattern matches
    when it occurs literally in the path; every path is its own absolute
    form. *)
Definition literalRegexp : filter.Regexp :=
  {| filter.MatchString pattern s := Some (strings.Contains s pattern) |}.
Definition identityAbs : filter.Filepath :=
  {| filter.Abs path := Ok path |}.

(** A stand-in vector engine for concrete runs: embeddings and distances are
    integers, the distance is the sum of the coordinate-wise differences, and
    [LIKE] understands the patterns the program builds, a literal prefix
    followed by [%]. *)
Fixpoint l1_distance (a b : list Z) : Z :=
  match a, b with
  | x :: a', y :: b' => Z.abs (x - y) + l1_distance a' b'
  | _, _ => 0
  end.

Definition toyVec : db.SqliteVec :=
  {| db.float32 := Z;
     db.float64 := Z;
     db.vec_distance_cosine := l1_distance;
     db.distance_le := Z.le;
     db.LIKE pattern s := strings.HasPrefix s (strings.TrimSuffix pattern "%") |}.
#[local] Existing Instance toyVec.

(** A store with one file and two chunks of it. *)
Definition storeTwoChunks : db.DB :=
  {| db.embeddingDim := 1;
     db.files := [ {| db.id := 1; db.path := "/p/a.go"; db.last_mod_time := 0;
                      db.content_hash := "h"; db.indexed_at := 0;
                      db.status := "indexed"; db.error_message := None;
                      db.retry_count := 0; db.queued_at := None |} ];
     db.files_seq := 1;
     db.vec_chunks := [ {| db.chunk_id := 1; db.file_id := 1;
                           db.content_snippet := "package a";
                           db.start_line := 1; db.end_line := 1; db.embedding := [ 3 ] |};
                        {| db.chunk_id := 2; db.file_id := 1;
                           db.content_snippet := "func f() {}";
                           db.start_line := 2; db.end_line := 2; db.embedding := [ 5 ] |} ];
     db.vec_chunks_seq := 2;
     db.entities := ∅; db.entities_seq := 0;
     db.graph_edges := ∅; db.chunk_graph_state := ∅ |}.

(** An extractor for concrete runs: one [calls] edge per chunk of the call. *)
Definition oneEdgePerChunk : indexer.GraphExtractor :=
  {| indexer.ExtractEdges := fun _ _ => Ok [];
     indexer.ExtractEdgesBatch := fun _ chunks =>
       Ok ((fun c => {| llm.E_Edge := {| llm.Source := "main"; llm.SourceType := "FUNCTION";
                                         llm.Target := "helper"; llm.TargetType := "FUNCTION";
                                         llm.RelationType := "calls" |};
                        llm.E_ChunkID := llm.In_ChunkID c;
                        llm.E_FileID := llm.In_FileID c |}) <$> chunks) |}.

(** An extractor that fails on every call. *)
Definition failingExtractor : indexer.GraphExtractor :=
  {| indexer.ExtractEdges := fun _ _ => Err "connection refused";
     indexer.ExtractEdgesBatch := fun _ _ => Err "connection refused" |}.

(** Stand-ins for the platform: the digest is the content behind a tag, and
    every file sniffs as plain text. *)
Definition toyPlatform : Platform :=
  {| sha256_hex := fun s => "sha256:" +:+ s;
     DetectContentType := fun _ => "text/plain; charset=utf-8" |}.
#[local] Existing Instance toyPlatform.
#[local] Existing Instance identityAbs.

(** A provider that embeds every text as the vector [[0]], and one that is
    down. *)
Definition constantEmbedder : EmbeddingProvider :=
  {| Embed := fun _ texts _ => Ok ((fun _ => [ 0 ]) <$> texts) |}.
Definition downEmbedder : EmbeddingProvider :=
  {| Embed := fun _ _ _ => Err "connection refused" |}.

Definition emptyStore : DB :=
  {| embeddingDim := 1; files := []; files_seq := 0;
     vec_chunks := []; vec_chunks_seq := 0;
     entities := ∅; entities_seq := 0; graph_edges := ∅; chunk_graph_state := ∅ |}.

Definition world0 : World :=
  {| w_db := emptyStore; w_embedCalls := []; w_clock := 1000 |}.

(** One source file of two lines. *)
Definition sourceText : string := "package a" +:+ nl +:+ "func f() {}" +:+ nl.
Definition fs1 : gmap string FsFile :=
  {[ "/p/a.go" := {| fs_content := sourceText; fs_modTime := 42 |} ]}.

(** The worker as the daemon configures it: batches of 5, 3 retries. *)
Definition daemonWorker : IndexWorker :=
  NewIndexWorker {| PollInterval := 5 * 1000000000; BatchSize := 5; MaxRetries := 3 |}.

(** The state once [chainsaw index /p/a.go] has queued the file. *)
Definition queued : World := (queueFile fs1 "/p/a.go" world0).2.

(** The status and the retry counter of the rows of [files]. *)
Definition queueState (st : World) : list (string * string * Z) :=
  (fun f => (path f, status f, retry_count f)) <$> files (w_db st).

(** The chunk ids of the rows of [vec_chunks] that belong to a file. *)
Definition chunkIDsOf (fileID : Z) (st : World) : list Z :=
  chunk_id <$> List.filter (fun c => file_id c =? fileID) (vec_chunks (w_db st)).

(** The states the failing file cycles through: pending, retry counter 0,
    with the clock [c], the times [t] and [q] of the last upsert and of the
    last queueing, and the provider calls made so far. *)
Definition stuck (c t q : Z) (calls : list (list string)) : World :=
  {| w_db :=
       {| embeddingDim := 1;
          files := [ {| id := 1; path := "/p/a.go"; last_mod_time := 42;
                        content_hash := sha256_hex sourceText; indexed_at := t;
                        status := "pending"; error_message := None;
                        retry_count := 0; queued_at := Some q |} ];
          files_seq := 1; vec_chunks := []; vec_chunks_seq := 0;
          entities := ∅; entities_seq := 0; graph_edges := ∅; chunk_graph_state := ∅ |};
     w_embedCalls := calls;
     w_clock := c |}.

(** The state after the worker has indexed the queued file, and after the
    same, unchanged file has been queued and polled a second time. *)
Definition indexedOnce : World :=
  worker.processBatch daemonWorker DefaultConfig constantEmbedder fs1 queued.
Definition indexedTwice : World :=
  worker.processBatch daemonWorker DefaultConfig constantEmbedder fs1
    (queueFile fs1 "/p/a.go" indexedOnce).2.

(** The chunker configuration of [TestChunkContent]. *)
Definition testConfig : indexer.Config :=
  {| ChunkSize := 20; ChunkOverlap := 5; EmbedModel := ""; GraphModel := "";
     indexer.BatchSize := 20; GraphBatchSize := 100; MaxConcurrency := 5;
     EnableGraphMode := false; MinChunkSize := 5; MaxChunkSize := 100;
     GraphDistanceThreshold := 1 # 2 |}.

(** Stand-ins for concrete runs.  [TrimSpace] strips blanks, tabs, carriage
    returns and newlines.  The decoder reads lines of the shape [{d...]: the
    digit [d] after the brace is the chunk number; anything else after the
    brace is a decoding error. *)
Definition isSpace (c : ascii) : bool :=
  Ascii.eqb c " " || Ascii.eqb c (ascii_of_nat 9) || Ascii.eqb c (ascii_of_nat 10)
  || Ascii.eqb c (ascii_of_nat 13).

Fixpoint trimLeft (s : string) : string :=
  match s with
  | String c s' => if isSpace c then trimLeft s' else s
  | EmptyString => EmptyString
  end.

Fixpoint trimRight (s : string) : string :=
  match s with
  | EmptyString => EmptyString
  | String c s' =>
      match trimRight s' with
      | EmptyString => if isSpace c then EmptyString else String c EmptyString
      | t => String c t
      end
  end.

Definition asciiTrim : Trim := {| TrimSpace s := trimRight (trimLeft s) |}.

Definition digitJson : Json :=
  {| Unmarshal line :=
       match line with
       | String _ (String d _) =>
           let n := Z.of_nat (nat_of_ascii d) - 48 in
           if (0 <=? n) && (n <=? 9)
           then inr {| P_Chunk := n; P_Source := "main"; P_SourceType := "FUNCTION";
                       P_Target := "helper"; P_TargetType := "FUNCTION";
                       P_RelationType := "calls" |}
           else inl "invalid character"
       | _ => inl "unexpected end of JSON input"
       end |}.

Definition twoChunks : gmap Z ChunkMetadata :=
  buildMapping [ {| In_ChunkID := 11; In_FileID := 5; In_FilePath := "/p/a.go";
                    In_Content := "package a" |};
                 {| In_ChunkID := 12; In_FileID := 5; In_FilePath := "/p/a.go";
                    In_Content := "func f() {}" |} ] 1 ∅.

End samples.

(** * Properties *)

Import samples.


Section CypherProps.
Import strings ast cypher.

(** The three cases of [TestTranspileBasic] and [TestAggregateTranspile] that
    the generator passes fix the reading of the model. *)
Example transpile_basic_forward :
  generateSingleHopSQL
    (NewQuery {| Pattern := NewPathPattern (NewNodeLabeled "f" "FUNCTION")
                              (NewEdgeForward "calls") (NewNodeLabeled "t" "FUNCTION") |}
              {| Return_Items := [ NewReturnProp "f" "name"; NewReturnProp "t" "name" ] |})
    {| CWD := "" |}
  = Ok {| SQL := "SELECT e1.name AS f_name, e2.name AS t_name" +:+ fromClause +:+
                 nl +:+ "WHERE e1.entity_type = ?" +:+
                 nl +:+ "  AND g.relation_type = ?" +:+
                 nl +:+ "  AND e2.entity_type = ?";
          Args := [ ArgStr "FUNCTION"; ArgStr "calls"; ArgStr "FUNCTION" ] |}.
Proof. vm_compute. reflexivity. Qed.

Example transpile_basic_backward :
  generateSingleHopSQL
    (NewQuery {| Pattern := NewPathPattern (NewNodeLabeled "i" "INTERFACE")
                              (NewEdgeBackward "implements") (NewNodeLabeled "s" "STRUCT") |}
              {| Return_Items := [ NewReturnProp "i" "name"; NewReturnProp "s" "name" ] |})
    {| CWD := "" |}
  = Ok {| SQL := "SELECT e2.name AS i_name, e1.name AS s_name" +:+ fromClause +:+
                 nl +:+ "WHERE e1.entity_type = ?" +:+
                 nl +:+ "  AND g.relation_type = ?" +:+
                 nl +:+ "  AND e2.entity_type = ?";
          Args := [ ArgStr "STRUCT"; ArgStr "implements"; ArgStr "INTERFACE" ] |}.
Proof. vm_compute. reflexivity. Qed.

(** The generator never reads its options: two calls that differ only in the
    CWD produce the same statement and the same arguments. *)
Lemma generateSingleHopSQL_ignores_options (q : Query) (o1 o2 : TranspileOptions) :
  generateSingleHopSQL q o1 = generateSingleHopSQL q o2.
Proof. reflexivity. Qed.

(** C1 (code defect).  On the query and working directory of the repository's
    own test [TestTranspileWithCWD], the generator emits a WHERE clause that
    starts with the source-label condition and binds only the label and the
    edge type: the filter [(f1.path LIKE ? OR f2.path LIKE ?)] and the two
    prefix arguments the test expects are absent. *)
Theorem C1_single_hop_cwd_filter_missing :
  generateSQL cwdTestQuery cwdTestOptions
  = generateSingleHopSQL cwdTestQuery cwdTestOptions
  /\ generateSingleHopSQL cwdTestQuery cwdTestOptions
     = Ok {| SQL := "SELECT e1.name AS f_name, e2.name AS t_name" +:+ fromClause +:+
                    nl +:+ "WHERE e1.entity_type = ?" +:+
                    nl +:+ "  AND g.relation_type = ?";
             Args := [ ArgStr "FUNCTION"; ArgStr "calls" ] |}
  /\ generateSingleHopSQL cwdTestQuery cwdTestOptions <> Ok cwdTestWant.
Proof.
  split; [ reflexivity | ].
  split; [ vm_compute; reflexivity | vm_compute; discriminate ].
Qed.

(** [TestAggregateTranspile], "count with order by and limit". *)
Example transpile_count_order_limit :
  generateSQL
    (NewQueryWithClauses
       {| Pattern := NewPathPattern (NewNodeVar "a") (NewEdgeForward "calls") (NewNodeVar "b") |}
       {| Return_Items := [ NewReturnProp "b" "name";
                            NewReturnAggregateWithAlias "COUNT" "a" "callers" ] |}
       (Some {| Group_Items := [ {| Group_Variable := "b"; Group_Property := "name" |} ] |})
       (Some {| Order_Items := [ {| Expression := "callers"; Ascending := false |} ] |})
       (Some {| Count := 10 |}))
    {| CWD := "" |}
  = Ok {| SQL := "SELECT e2.name AS b_name, COUNT(DISTINCT e1.id) AS callers" +:+
                 fromClause +:+
                 nl +:+ "WHERE g.relation_type = ?" +:+
                 nl +:+ "GROUP BY e2.name" +:+
                 nl +:+ "ORDER BY callers DESC" +:+
                 nl +:+ "LIMIT 10";
          Args := [ ArgStr "calls" ] |}.
Proof. vm_compute. reflexivity. Qed.

(** A hop range goes to the recursive generator ([TestMultiHopTranspile]). *)
Example transpile_multi_hop_args :
  Args <$> match generateSQL
                   (NewQuery {| Pattern := NewPathPattern (NewNodeLabeled "a" "FUNCTION")
                                             (NewEdgeMultiHopForward "calls" 1 3)
                                             (NewNodeVar "b") |}
                             {| Return_Items := [ NewReturnProp "a" "name";
                                                  NewReturnProp "b" "name" ] |})
                   {| CWD := "/home/user" |} with
           | Ok r => Some r
           | _ => None
           end
  = Some [ ArgStr "FUNCTION"; ArgStr "calls"; ArgStr "calls"; ArgInt 3; ArgInt 1 ].
Proof. vm_compute. reflexivity. Qed.

End CypherProps.

Section FilterProps.
Import strings filter.
Context `{Regexp} `{Filepath}.

Lemma matchesAny_spec (patterns : list string) (P : string) :
  matchesAny patterns P = true <-> matches patterns P.
Proof.
  induction patterns as [|pattern rest IH]; simpl.
  - split; [ discriminate | ].
    intros (p & Hin & _). by apply elem_of_nil in Hin.
  - destruct (MatchString pattern P) as [[|]|] eqn:E.
    + split; [ intros _ | reflexivity ].
      exists pattern. split; [ apply elem_of_cons; by left | exact E ].
    + rewrite IH. split.
      * intros (p & Hin & Hp). exists p. split; [ apply elem_of_cons; by right | exact Hp ].
      * intros (p & Hin & Hp). apply elem_of_cons in Hin as [-> | Hin]; [ congruence | ].
        by exists p.
    + rewrite IH. split.
      * intros (p & Hin & Hp). exists p. split; [ apply elem_of_cons; by right | exact Hp ].
      * intros (p & Hin & Hp). apply elem_of_cons in Hin as [-> | Hin]; [ congruence | ].
        by exists p.
Qed.

(** C7.  With [P] the absolute form of the path, the file filter admits the
    file exactly when [P] matches no blacklist pattern or matches some
    whitelist pattern; an empty blacklist admits every path, and a path
    matching both lists is admitted. *)
Theorem C7_file_filter_semantics (filePath P : string) (B W : list string) :
  Abs filePath = Ok P ->
  (exists allow, ShouldIndexFile filePath B W = Ok allow /\
                 (allow = true <-> ~ matches B P \/ matches W P))
  /\ ShouldIndexFile filePath [] W = Ok true
  /\ (matches B P -> matches W P -> ShouldIndexFile filePath B W = Ok true).
Proof.
  intros HP. unfold ShouldIndexFile. rewrite HP. simpl.
  pose proof (matchesAny_spec B P) as HB.
  pose proof (matchesAny_spec W P) as HW.
  split; [ | split ].
  - destruct (matchesAny B P) eqn:EB; simpl.
    + destruct (matchesAny W P) eqn:EW.
      * exists true. split; [ reflexivity | ]. split; [ intros _ | reflexivity ].
        right. by apply HW.
      * exists false. split; [ reflexivity | ]. split; [ discriminate | ].
        intros [HnB | HmW].
        -- exfalso. apply HnB. by apply HB.
        -- apply HW in HmW. discriminate.
    + exists true. split; [ reflexivity | ]. split; [ intros _ | reflexivity ].
      left. intros Hm. apply HB in Hm. discriminate.
  - reflexivity.
  - intros HmB HmW. apply HB in HmB. apply HW in HmW.
    rewrite HmB, HmW. reflexivity.
Qed.

End FilterProps.

Lemma C7_file_filter_semantics_witness :
  (exists allow,
      @filter.ShouldIndexFile literalRegexp identityAbs
        "/home/user/project/important.secret" [ ".secret" ] [ "important" ] = Ok allow /\
      (allow = true <->
         ~ @filter.matches literalRegexp [ ".secret" ] "/home/user/project/important.secret"
         \/ @filter.matches literalRegexp [ "important" ] "/home/user/project/important.secret"))
  /\ @filter.ShouldIndexFile literalRegexp identityAbs
        "/home/user/project/important.secret" [] [ "important" ] = Ok true
  /\ (@filter.matches literalRegexp [ ".secret" ] "/home/user/project/important.secret" ->
      @filter.matches literalRegexp [ "important" ] "/home/user/project/important.secret" ->
      @filter.ShouldIndexFile literalRegexp identityAbs
        "/home/user/project/important.secret" [ ".secret" ] [ "important" ] = Ok true).
Proof.
  apply (@C7_file_filter_semantics literalRegexp identityAbs
           "/home/user/project/important.secret" "/home/user/project/important.secret").
  reflexivity.
Defined.

(** The cases of [TestShouldIndexFile], on the stand-in engine. *)
Example ShouldIndexFile_rejects_blacklisted :
  @filter.ShouldIndexFile literalRegexp identityAbs
    "/home/user/project/test.secret" [ ".secret" ] [ "important" ] = Ok false.
Proof. reflexivity. Qed.

Section JsonlProps.
Import strings llm.
Context `{Json} `{Trim}.

Lemma HasPrefix_backtick (l : string) :
  HasPrefix l "`" = false -> HasPrefix l "```" = false.
Proof.
  destruct l as [|c l']; cbn [HasPrefix]; [ done | ].
  destruct (Ascii.eqb c "`"); simpl; [ discriminate | done ].
Qed.

Lemma HasPrefix_brace (l : string) :
  HasPrefix l "{" = true -> HasPrefix l "`" = false.
Proof.
  destruct l as [|c l']; cbn [HasPrefix]; [ done | ].
  destruct (Ascii.eqb_spec c "{") as [->|]; [ | discriminate ].
  intros _. reflexivity.
Qed.

#[local] Arguments HasPrefix : simpl never.

Lemma looksLikeJSON_spec (l : string) :
  looksLikeJSON l = true <-> l <> "" /\ HasPrefix l "`" = false /\ HasPrefix l "{" = true.
Proof.
  unfold looksLikeJSON. split.
  - intros Hl. apply andb_true_iff in Hl as [Hl Hbrace].
    apply andb_true_iff in Hl as [Hne Hfence].
    split; [ | split ]; [ | | exact Hbrace ].
    + intros ->. discriminate.
    + by apply HasPrefix_brace.
  - intros (Hne & Htick & Hbrace).
    rewrite (HasPrefix_backtick _ Htick), Htick, Hbrace.
    destruct (String.eqb_spec l ""); [ contradiction | ].
    assert (String.eqb l "```json" = false) as ->.
    { destruct (String.eqb_spec l "```json") as [->|]; [ discriminate | done ]. }
    assert (String.eqb l "```" = false) as ->.
    { destruct (String.eqb_spec l "```") as [->|]; [ discriminate | done ]. }
    reflexivity.
Qed.

Lemma looksLikeJSON_false (l : string) :
  looksLikeJSON l = false -> l = "" \/ HasPrefix l "`" = true \/ HasPrefix l "{" = false.
Proof.
  intros Hl. destruct (decide (l = "")) as [|Hne]; [ by left | right ].
  destruct (HasPrefix l "`") eqn:Htick; [ by left | right ].
  destruct (HasPrefix l "{") eqn:Hbrace; [ | done ].
  assert (looksLikeJSON l = true) by (by apply looksLikeJSON_spec).
  congruence.
Qed.

Lemma parseLoop_edges (m : gmap Z ChunkMetadata) (lines : list string) :
  forall lineNum edges errors,
    (parseLoop m lines lineNum edges errors).1 = edges ++ omap (lineEdge m) lines.
Proof.
  induction lines as [|line rest IH]; intros lineNum edges errors; simpl.
  - by rewrite app_nil_r.
  - unfold lineEdge at 1.
    destruct (looksLikeJSON (TrimSpace line)) eqn:E; simpl.
    + apply looksLikeJSON_spec in E as (Hne & Htick & Hbrace).
      rewrite decide_False by done. rewrite Htick, Hbrace. simpl.
      destruct (Unmarshal (TrimSpace line)) as [err|parsed]; [ apply IH | ].
      destruct (m !! P_Chunk parsed) as [metadata|]; simpl; [ | apply IH ].
      rewrite IH. by rewrite <- app_assoc.
    + rewrite IH.
      apply looksLikeJSON_false in E as [E | [E | E]].
      * by rewrite decide_True.
      * destruct (decide (TrimSpace line = "")); [ done | ]. by rewrite E.
      * destruct (decide (TrimSpace line = "")); [ done | ].
        destruct (HasPrefix (TrimSpace line) "`"); [ done | ]. by rewrite E.
Qed.

Lemma parseLoop_errors (m : gmap Z ChunkMetadata) (lines : list string) :
  forall lineNum edges errors,
    (parseLoop m lines lineNum edges errors).2 = [] <->
    errors = [] /\ Forall (fun line => lineFails m line = false) lines.
Proof.
  induction lines as [|line rest IH]; intros lineNum edges errors; simpl.
  - split; [ intros ->; split; [ done | constructor ] | by intros [-> _] ].
  - rewrite Forall_cons. unfold lineFails at 1.
    destruct (looksLikeJSON (TrimSpace line)) eqn:E; simpl.
    + apply looksLikeJSON_spec in E as (Hne & Htick & Hbrace).
      rewrite decide_False by done. rewrite Htick, Hbrace. simpl.
      destruct (Unmarshal (TrimSpace line)) as [err|parsed].
      * rewrite IH. split; [ intros [Habs _] | intros (_ & Habs & _) ].
        -- by destruct errors.
        -- discriminate.
      * destruct (m !! P_Chunk parsed) as [metadata|] eqn:Em.
        -- rewrite IH. rewrite bool_decide_eq_false.
           split; [ intros [-> Hrest]; repeat split; [ congruence | exact Hrest ]
                  | intros (-> & _ & Hrest); by split ].
        -- rewrite IH. rewrite bool_decide_eq_false.
           split; [ intros [Habs _] | intros (_ & Habs & _) ].
           ++ by destruct errors.
           ++ by destruct Habs.
    + rewrite IH.
      assert ((if decide (TrimSpace line = "") then false
               else if HasPrefix (TrimSpace line) "`" then false
               else if negb (HasPrefix (TrimSpace line) "{") then false
               else match Unmarshal (TrimSpace line) with
                    | inl _ => true
                    | inr parsed => bool_decide (m !! P_Chunk parsed = None)
                    end) = false) as ->; [ | tauto ].
      apply looksLikeJSON_false in E as [E | [E | E]].
      * by rewrite decide_True.
      * destruct (decide (TrimSpace line = "")); [ done | ]. by rewrite E.
      * destruct (decide (TrimSpace line = "")); [ done | ].
        destruct (HasPrefix (TrimSpace line) "`"); [ done | ]. by rewrite E.
Qed.

Lemma skippedLine_no_effect (m : gmap Z ChunkMetadata) (line : string) :
  skippedLine line -> lineEdge m line = None /\ lineFails m line = false.
Proof.
  unfold skippedLine, lineEdge, lineFails. intros [E | [E | E]].
  - by rewrite !decide_True.
  - destruct (decide (TrimSpace line = "")); [ done | ]. by rewrite E.
  - destruct (decide (TrimSpace line = "")); [ done | ].
    destruct (HasPrefix (TrimSpace line) "`"); [ done | ]. by rewrite E.
Qed.

(** C8.  [valid] is the list of the edges of the lines that hold a valid edge
    with a known chunk number, in line order.  Blank, fenced and non-JSON
    lines give neither an edge nor an error.  As soon as one line holds a
    valid edge, [ParseJSONL] returns [valid] and no error; it returns an error
    exactly when [valid] is empty and some line is a parse error. *)
Theorem C8_ParseJSONL_partial_parse (response : string) (chunkMapping : gmap Z ChunkMetadata) :
  let lines := responseLines response in
  let valid := omap (lineEdge chunkMapping) lines in
  (forall line, skippedLine line ->
     lineEdge chunkMapping line = None /\ lineFails chunkMapping line = false)
  /\ ((exists line e, line ∈ lines /\ lineEdge chunkMapping line = Some e) ->
      valid <> [] /\ ParseJSONL response chunkMapping = Ok valid)
  /\ ((exists msg, ParseJSONL response chunkMapping = Err msg) <->
      valid = [] /\ exists line, line ∈ lines /\ lineFails chunkMapping line = true)
  /\ (forall msg, ParseJSONL response chunkMapping <> Panic msg).
Proof.
  intros lines valid.
  pose proof (parseLoop_edges chunkMapping lines 0 [] []) as Hedges.
  pose proof (parseLoop_errors chunkMapping lines 0 [] []) as Herrors.
  unfold ParseJSONL. fold (responseLines response). fold lines.
  destruct (parseLoop chunkMapping lines 0 [] []) as [edges errors].
  simpl in Hedges, Herrors. fold valid in Hedges. subst edges.
  split; [ | split; [ | split ] ].
  - intros line. apply skippedLine_no_effect.
  - intros (line & e & Hin & He).
    assert (valid <> []) as Hne.
    { intros Hnil. assert (e ∈ valid) as Hev.
      { apply list_elem_of_omap. by exists line. }
      rewrite Hnil in Hev. by apply elem_of_nil in Hev. }
    split; [ exact Hne | ].
    destruct valid; [ done | reflexivity ].
  - destruct valid as [|e valid'].
    + destruct errors as [|err errors'].
      * split; [ intros [msg Hmsg]; discriminate | ].
        intros (_ & line & Hin & Hfail).
        assert (Forall (fun line => lineFails chunkMapping line = false) lines) as Hall
            by (by apply Herrors).
        rewrite Forall_forall in Hall. specialize (Hall line Hin). congruence.
      * split; [ intros _ | intros _; eauto ].
        split; [ done | ].
        destruct (decide (Exists (fun line => lineFails chunkMapping line = true) lines))
          as [Hex | Hnex].
        -- apply Exists_exists in Hex. exact Hex.
        -- exfalso. assert (err :: errors' = []) as Habs; [ | discriminate ].
           apply Herrors. split; [ done | ].
           apply Forall_forall. intros line Hin.
           destruct (lineFails chunkMapping line) eqn:Ef; [ | done ].
           exfalso. apply Hnex. apply Exists_exists. by exists line.
    + split; [ intros [msg Hmsg]; discriminate | intros [Habs _]; discriminate ].
  - intros msg. destruct valid; destruct errors; discriminate.
Qed.

End JsonlProps.

Section StoreProps.
Import strings db.
Context `{SqliteVec}.

Lemma length_joinFiles {A} (key : A -> Z) (d : DB) (rows : list A) :
  (length (joinFiles key d rows) <= length rows)%nat.
Proof.
  unfold joinFiles. induction rows as [|r rows IH]; simpl; [ lia | ].
  destruct (fileByID (key r) d); simpl.
  - apply le_n_S. exact IH.
  - apply Nat.le_trans with (1 := IH). lia.
Qed.

Lemma length_List_filter {A} (f : A -> bool) (l : list A) :
  (length (List.filter f l) <= length l)%nat.
Proof. induction l as [|x l IH]; simpl; [ lia | ]. destruct (f x); simpl; lia. Qed.

#[local] Instance by_distance_total : Total by_distance.
Proof. intros a b. unfold by_distance. apply distance_le_total. Qed.

#[local] Instance by_chunk_id_total : Total by_chunk_id.
Proof. intros a b. unfold by_chunk_id. lia. Qed.

Lemma relatedLoop_nil (pathFilter : string) (d : DB) (acc : list RelatedChunk) :
  relatedLoop pathFilter d [] acc = Ok acc.
Proof. reflexivity. Qed.

Lemma relationsLoop_stub (maxDepth : Z) (pathFilter : string) (d : DB)
    (results : list SearchResult) :
  relationsLoop maxDepth pathFilter d results = Ok results.
Proof.
  induction results as [|r rest IH]; [ reflexivity | ].
  cbn [relationsLoop]. unfold GetNeighbors. rewrite relatedLoop_nil.
  simpl. rewrite IH. simpl. by destruct r.
Qed.

Lemma SearchSimilar_no_related (q : list float32) (limit : Z) (pathFilter : string)
    (d : DB) (rs : list SearchResult) :
  SearchSimilar q limit pathFilter d = Ok rs ->
  Forall (fun r => RelatedChunks r = []) rs.
Proof.
  unfold SearchSimilar.
  destruct (negb (Z.of_nat (length q) =? embeddingDim d)); [ discriminate | ].
  intros [= <-]. apply Forall_fmap, Forall_forall. intros r _. reflexivity.
Qed.

(** C9.  [GetNeighbors] returns the empty list and no error, whatever its
    options; hence [SearchWithRelations] returns what [SearchSimilar] returns
    on the same embedding, limit and path filter, for every depth, and every
    result carries an empty list of related chunks. *)
Theorem C9_expanded_search_is_plain_search (d : DB) :
  (forall opts, GetNeighbors opts d = Ok [])
  /\ (forall (q : list float32) (limit maxDepth : Z) (pathFilter : string),
        SearchWithRelations q limit maxDepth pathFilter d
        = SearchSimilar q limit pathFilter d
        /\ forall rs, SearchWithRelations q limit maxDepth pathFilter d = Ok rs ->
                      Forall (fun r => RelatedChunks r = []) rs).
Proof.
  split; [ reflexivity | ].
  intros q limit maxDepth pathFilter.
  assert (SearchWithRelations q limit maxDepth pathFilter d
          = SearchSimilar q limit pathFilter d) as Heq.
  { unfold SearchWithRelations.
    destruct (SearchSimilar q limit pathFilter d) as [rs| |]; simpl; try reflexivity.
    apply relationsLoop_stub. }
  split; [ exact Heq | ].
  intros rs Hrs. rewrite Heq in Hrs. by eapply SearchSimilar_no_related.
Qed.

(** C10.  A limit that is not positive is no error: the search runs with the
    limit 10.  It returns what the call with limit 10 returns and, when the
    query has the stored dimension, that is a list of at most 10 results in
    ascending order of distance. *)
Theorem C10_nonpositive_limit_defaults_to_10 (q : list float32) (limit : Z)
    (pathFilter : string) (d : DB) :
  limit <= 0 ->
  SearchSimilar q limit pathFilter d = SearchSimilar q 10 pathFilter d
  /\ (Z.of_nat (length q) = embeddingDim d ->
      exists rs, SearchSimilar q limit pathFilter d = Ok rs
                 /\ (length rs <= 10)%nat
                 /\ Sorted (fun a b => distance_le (Distance a) (Distance b)) rs).
Proof.
  intros Hlimit. unfold SearchSimilar.
  assert ((limit <=? 0) = true) as -> by (apply Z.leb_le; lia).
  change (10 <=? 0) with false. cbv iota.
  split; [ reflexivity | ].
  intros Hdim. apply Z.eqb_eq in Hdim. rewrite Hdim. cbn [negb].
  eexists. split; [ reflexivity | ]. split.
  - rewrite length_fmap.
    rewrite (Permutation_length (merge_sort_Permutation _ _)).
    assert (length (joinFiles (fun cd : ChunkRow * float64 => file_id cd.1) d (knn q 10 d))
            <= 10)%nat as Hjoin.
    { etransitivity; [ apply length_joinFiles | ].
      unfold knn. rewrite length_take. lia. }
    destruct (negb (String.eqb pathFilter "")); [ | exact Hjoin ].
    etransitivity; [ apply length_List_filter | exact Hjoin ].
  - apply (Sorted_fmap _ by_distance); [ | apply (Sorted_merge_sort by_distance) ].
    intros a b Hab. exact Hab.
Qed.

Lemma GetChunksByIDs_returns (chunkIDs : list Z) (d : DB) :
  exists rs, GetChunksByIDs chunkIDs d = Ok rs.
Proof. destruct chunkIDs; eexists; reflexivity. Qed.

Lemma requested_rows (chunkIDs : list Z) (d : DB) (rows : list ChunkRow) :
  chunkWithPath <$> filter (fun r : ChunkRow * FileRow => chunk_id r.1 ∈ chunkIDs)
                           (joinFiles file_id d rows)
  = omap (fun c => if decide (chunk_id c ∈ chunkIDs)
                   then (fun f => chunkWithPath (c, f)) <$> fileByID (file_id c) d
                   else None) rows.
Proof.
  unfold joinFiles. induction rows as [|c rows IH]; [ reflexivity | ].
  cbn [omap list_omap].
  destruct (fileByID (file_id c) d) as [f|]; cbn [fmap option_fmap option_map].
  - rewrite filter_cons. cbn [fst].
    destruct (decide (chunk_id c ∈ chunkIDs)); cbn; [ by rewrite <- IH | exact IH ].
  - destruct (decide (chunk_id c ∈ chunkIDs)); exact IH.
Qed.

Lemma requested_ids_sublist (chunkIDs : list Z) (d : DB) (rows : list ChunkRow) :
  sublist (CP_ChunkID <$>
             omap (fun c => if decide (chunk_id c ∈ chunkIDs)
                            then (fun f => chunkWithPath (c, f)) <$> fileByID (file_id c) d
                            else None) rows)
          (chunk_id <$> rows).
Proof.
  induction rows as [|c rows IH]; [ constructor | ].
  cbn [omap list_omap]. rewrite fmap_cons.
  destruct (decide (chunk_id c ∈ chunkIDs)); [ | by apply sublist_cons ].
  destruct (fileByID (file_id c) d) as [f|]; cbn; [ | by apply sublist_cons ].
  by apply sublist_skip.
Qed.

Lemma Sorted_NoDup_strict (rs : list ChunkWithPath) :
  Sorted by_chunk_id rs -> NoDup (CP_ChunkID <$> rs) ->
  Sorted (fun a b => CP_ChunkID a < CP_ChunkID b) rs.
Proof.
  intros Hs Hn. apply Sorted_StronglySorted in Hs;
    [ | intros a b c; unfold by_chunk_id; lia ].
  induction Hs as [|r rs Hs IH Hall]; [ constructor | ].
  rewrite fmap_cons in Hn. apply NoDup_cons in Hn as [Hr Hn].
  constructor; [ by apply IH | ].
  destruct rs as [|r' rs]; constructor.
  apply Forall_cons in Hall as [Hle _]. unfold by_chunk_id in Hle.
  assert (CP_ChunkID r <> CP_ChunkID r'); [ | lia ].
  intros Heq. apply Hr. rewrite fmap_cons, Heq. apply elem_of_cons. by left.
Qed.

(** C6 (as amended).  [GetChunksByIDs] returns the chunks whose id is in the
    list and whose file row exists, in ascending order of chunk id.  Each
    matching row of [vec_chunks] is returned once: the result is a permutation
    of the matching rows, in particular however often an id occurs in the list;
    and as [chunk_id] is the primary key of [vec_chunks], no chunk id occurs
    twice in the result, which is strictly ascending.  The result depends on
    the ids asked for, not on the order they are given in. *)
Theorem C6_GetChunksByIDs_sorted_by_id (chunkIDs : list Z) (d : DB) :
  exists rs, GetChunksByIDs chunkIDs d = Ok rs
    /\ Sorted by_chunk_id rs
    /\ (forall r, r ∈ rs <->
          exists c f, c ∈ vec_chunks d /\ fileByID (file_id c) d = Some f
                      /\ chunk_id c ∈ chunkIDs /\ r = chunkWithPath (c, f))
    /\ rs ≡ₚ omap (fun c => if decide (chunk_id c ∈ chunkIDs)
                            then (fun f => chunkWithPath (c, f)) <$> fileByID (file_id c) d
                            else None) (vec_chunks d)
    /\ (NoDup (chunk_id <$> vec_chunks d) ->
          NoDup (CP_ChunkID <$> rs)
          /\ Sorted (fun a b => CP_ChunkID a < CP_ChunkID b) rs)
    /\ (forall chunkIDs', (forall i, i ∈ chunkIDs <-> i ∈ chunkIDs') ->
          GetChunksByIDs chunkIDs' d = Ok rs).
Proof.
  assert (exists rs, GetChunksByIDs chunkIDs d = Ok rs
            /\ Sorted by_chunk_id rs
            /\ rs ≡ₚ omap (fun c => if decide (chunk_id c ∈ chunkIDs)
                            then (fun f => chunkWithPath (c, f)) <$> fileByID (file_id c) d
                            else None) (vec_chunks d)) as (rs & Hrs & Hsorted & Hperm).
  { destruct chunkIDs as [|i0 ids0].
    - exists []. split; [ reflexivity | ]. split; [ constructor | ].
      induction (vec_chunks d) as [|c rows IH]; [ reflexivity | ].
      cbn [omap list_omap]. rewrite decide_False by apply not_elem_of_nil. exact IH.
    - eexists. split; [ reflexivity | ].
      split; [ apply (Sorted_merge_sort by_chunk_id) | ].
      rewrite merge_sort_Permutation. by rewrite requested_rows. }
  exists rs. split; [ exact Hrs | ]. split; [ exact Hsorted | ].
  split; [ | split; [ exact Hperm | split ] ].
  - intros r. rewrite Hperm, list_elem_of_omap. split.
    + intros (c & Hc & Hr).
      destruct (decide (chunk_id c ∈ chunkIDs)) as [Hid|]; [ | discriminate ].
      destruct (fileByID (file_id c) d) as [f|] eqn:Ef; [ | discriminate ].
      injection Hr as <-. by exists c, f.
    + intros (c & f & Hc & Hf & Hid & ->). exists c. split; [ exact Hc | ].
      rewrite decide_True by exact Hid. by rewrite Hf.
  - intros Hkey.
    assert (NoDup (CP_ChunkID <$> rs)) as Hnodup.
    { rewrite Hperm. eapply sublist_NoDup; [ exact Hkey | apply requested_ids_sublist ]. }
    split; [ exact Hnodup | by apply Sorted_NoDup_strict ].
  - intros ids' Hsame. rewrite <- Hrs.
    destruct chunkIDs as [|i0 ids0], ids' as [|i' ids']; [ reflexivity | | | ].
    + exfalso. assert (i' ∈ @nil Z) as Habs by (apply Hsame, elem_of_cons; by left).
      by apply elem_of_nil in Habs.
    + exfalso. assert (i0 ∈ @nil Z) as Habs by (apply Hsame, elem_of_cons; by left).
      by apply elem_of_nil in Habs.
    + unfold GetChunksByIDs. do 3 f_equal.
      apply list_filter_iff. intros r. symmetry. apply Hsame.
Qed.

End StoreProps.

(** C6 (as stated) fails: asked for the chunks 2 and 1, in this order, the
    store answers with chunk 1 before chunk 2. *)
Section StoreRuns.
#[local] Existing Instance toyVec.

Lemma C6_caller_order_counterexample :
  ~ (forall (engine : db.SqliteVec) (chunkIDs : list Z) (d : db.DB)
            (rs : list db.ChunkWithPath),
       chunkIDs <> [] ->
       db.GetChunksByIDs chunkIDs d = Ok rs ->
       length rs = length chunkIDs ->
       db.CP_ChunkID <$> rs = chunkIDs).
Proof.
  intros Horder.
  specialize (Horder toyVec [ 2; 1 ] storeTwoChunks _ ltac:(discriminate) eq_refl eq_refl).
  vm_compute in Horder. discriminate.
Qed.

(** In the store with two chunks no chunk id occurs twice, so the answer to the
    ids 2 and 1 holds every chunk id once, in strictly ascending order. *)
Lemma C6_GetChunksByIDs_sorted_by_id_witness :
  exists rs, db.GetChunksByIDs [ 2; 1 ] storeTwoChunks = Ok rs
    /\ NoDup (db.CP_ChunkID <$> rs)
    /\ Sorted (fun a b => db.CP_ChunkID a < db.CP_ChunkID b) rs.
Proof.
  destruct (C6_GetChunksByIDs_sorted_by_id (H := toyVec) [ 2; 1 ] storeTwoChunks)
    as (rs & Hrs & _ & _ & _ & Hkey & _).
  exists rs. split; [ exact Hrs | ]. apply Hkey.
  apply (bool_decide_unpack _). by vm_compute.
Defined.

Lemma C10_nonpositive_limit_defaults_to_10_witness :
  db.SearchSimilar [ 4 ] (-1) "" storeTwoChunks = db.SearchSimilar [ 4 ] 10 "" storeTwoChunks
  /\ (Z.of_nat (length [ 4 ]) = db.embeddingDim storeTwoChunks ->
      exists rs, db.SearchSimilar [ 4 ] (-1) "" storeTwoChunks = Ok rs
                 /\ (length rs <= 10)%nat
                 /\ Sorted (fun a b => db.distance_le (db.Distance a) (db.Distance b)) rs).
Proof.
  apply (C10_nonpositive_limit_defaults_to_10 (H := toyVec) [ 4 ] (-1) "" storeTwoChunks).
  lia.
Defined.

Example SearchSimilar_nearest_first :
  db.ChunkID ∘ db.Res_Chunk <$>
    match db.SearchSimilar [ 5 ] 0 "/p/%" storeTwoChunks with Ok rs => rs | _ => [] end
  = [ 2; 1 ].
Proof. vm_compute. reflexivity. Qed.

End StoreRuns.

Section GraphProps.
Import strings llm db indexer.
Context `{SqliteVec}.

Lemma storeEdge_settled (e : EdgeWithMetadata) (d : DB) (s t : Z) :
  entities d !! srcKey e = Some s ->
  entities d !! tgtKey e = Some t ->
  storeEdge e d = (true, set_graph_edges (fun m => putEdge (entities d) m e) d).
Proof.
  intros Hs Ht. unfold storeEdge, UpsertEntity.
  unfold srcKey in Hs. unfold tgtKey in Ht. rewrite Hs, Ht.
  unfold UpsertEntityEdge. rewrite bool_decide_eq_true_2.
  - unfold putEdge, edgeKey, srcKey, tgtKey, rowOf. rewrite Hs, Ht. reflexivity.
  - unfold entityIDs. split; eapply elem_of_map_img_2; eassumption.
Qed.

Lemma storeEdge_step (e : EdgeWithMetadata) (d : DB) :
  let d' := (storeEdge e d).2 in
  entities d ⊆ entities d'
  /\ is_Some (entities d' !! srcKey e)
  /\ is_Some (entities d' !! tgtKey e)
  /\ graph_edges d' = putEdge (entities d') (graph_edges d) e
  /\ otherTables d' = otherTables d.
Proof.
  unfold storeEdge, UpsertEntity.
  fold (srcKey e). fold (tgtKey e).
  destruct (entities d !! srcKey e) as [s|] eqn:Es.
  - destruct (entities d !! tgtKey e) as [t|] eqn:Et.
    + unfold UpsertEntityEdge. rewrite bool_decide_eq_true_2.
      * simpl. repeat split; eauto.
        unfold putEdge, edgeKey. by rewrite Es, Et.
      * unfold entityIDs. split; eapply elem_of_map_img_2; eassumption.
    + unfold UpsertEntityEdge. cbn [entityIDs entities].
      assert (srcKey e <> tgtKey e) as Hne by congruence.
      rewrite bool_decide_eq_true_2.
      * simpl. repeat split.
        -- by apply insert_subseteq.
        -- rewrite lookup_insert_ne by done. eauto.
        -- rewrite lookup_insert_eq. eauto.
        -- unfold putEdge, edgeKey.
           rewrite lookup_insert_ne by done. rewrite Es, lookup_insert_eq. reflexivity.
      * unfold entityIDs. cbn [entities]. split.
        -- eapply elem_of_map_img_2. rewrite lookup_insert_ne by done. exact Es.
        -- eapply elem_of_map_img_2. apply lookup_insert_eq.
  - cbn [entities].
    destruct (decide (srcKey e = tgtKey e)) as [Heq | Hne].
    + rewrite <- Heq. rewrite lookup_insert_eq.
      unfold UpsertEntityEdge. cbn [entityIDs entities].
      rewrite bool_decide_eq_true_2.
      * simpl. repeat split.
        -- by apply insert_subseteq.
        -- rewrite lookup_insert_eq. eauto.
        -- rewrite lookup_insert_eq. eauto.
        -- unfold putEdge, edgeKey. rewrite <- Heq, lookup_insert_eq. reflexivity.
      * unfold entityIDs. cbn [entities].
        split; eapply elem_of_map_img_2; apply lookup_insert_eq.
    + rewrite lookup_insert_ne by done.
      destruct (entities d !! tgtKey e) as [t|] eqn:Et.
      * unfold UpsertEntityEdge. cbn [entityIDs entities].
        rewrite bool_decide_eq_true_2.
        -- simpl. repeat split.
           ++ by apply insert_subseteq.
           ++ rewrite lookup_insert_eq. eauto.
           ++ rewrite lookup_insert_ne by done. eauto.
           ++ unfold putEdge, edgeKey.
              rewrite lookup_insert_eq, lookup_insert_ne by done. by rewrite Et.
        -- unfold entityIDs. cbn [entities]. split.
           ++ eapply elem_of_map_img_2. apply lookup_insert_eq.
           ++ eapply elem_of_map_img_2. rewrite lookup_insert_ne by done. exact Et.
      * cbn [entities entities_seq].
        unfold UpsertEntityEdge. cbn [entityIDs entities].
        rewrite bool_decide_eq_true_2.
        -- simpl. repeat split.
           ++ etransitivity; [ apply (insert_subseteq _ (srcKey e)); exact Es | ].
              apply insert_subseteq. by rewrite lookup_insert_ne.
           ++ rewrite lookup_insert_ne by done. rewrite lookup_insert_eq. eauto.
           ++ rewrite lookup_insert_eq. eauto.
           ++ unfold putEdge, edgeKey.
              rewrite (lookup_insert_ne _ (tgtKey e) (srcKey e)) by done.
              rewrite !lookup_insert_eq. reflexivity.
        -- unfold entityIDs. cbn [entities]. split.
           ++ eapply elem_of_map_img_2.
              rewrite lookup_insert_ne by done. apply lookup_insert_eq.
           ++ eapply elem_of_map_img_2. apply lookup_insert_eq.
Qed.

Lemma storeEdges_total (es : list EdgeWithMetadata) :
  forall (t : Z) (d : DB), (storeEdges es t d).2 = (storeEdges es 0 d).2.
Proof.
  induction es as [|e es IH]; intros t d; [ reflexivity | ].
  simpl. destruct (storeEdge e d) as [stored d1].
  rewrite (IH (if stored then t + 1 else t)).
  by rewrite (IH (if stored then 0 + 1 else 0)).
Qed.

Lemma storeEdges_cons (e : EdgeWithMetadata) (es : list EdgeWithMetadata) (d : DB) :
  (storeEdges (e :: es) 0 d).2 = (storeEdges es 0 (storeEdge e d).2).2.
Proof.
  simpl. destruct (storeEdge e d) as [stored d1]. simpl. apply storeEdges_total.
Qed.

Lemma putEdge_weaken (ents1 ents2 : gmap (string * string * Z) Z)
    (m : gmap (Z * Z * Z) EdgeRow) (e : EdgeWithMetadata) :
  ents1 ⊆ ents2 ->
  is_Some (ents1 !! srcKey e) -> is_Some (ents1 !! tgtKey e) ->
  putEdge ents1 m e = putEdge ents2 m e.
Proof.
  intros Hsub [s Hs] [t Ht]. unfold putEdge, edgeKey.
  rewrite Hs, Ht.
  rewrite (lookup_weaken _ _ _ _ Hs Hsub), (lookup_weaken _ _ _ _ Ht Hsub).
  reflexivity.
Qed.

(** Storing the edges of a reply: the entity table only grows, every entity
    an edge names is in it afterwards, and the edge table is the old one with
    each edge written under the ids of its two entities. *)
Lemma storeEdges_spec (es : list EdgeWithMetadata) :
  forall d : DB,
    let d' := (storeEdges es 0 d).2 in
    entities d ⊆ entities d'
    /\ (forall e, e ∈ es ->
          is_Some (entities d' !! srcKey e) /\ is_Some (entities d' !! tgtKey e))
    /\ graph_edges d' = foldl (putEdge (entities d')) (graph_edges d) es
    /\ otherTables d' = otherTables d.
Proof.
  induction es as [|e es IH]; intros d.
  - simpl. split; [ done | ].
    split; [ intros e0 He; by apply elem_of_nil in He | ]. by split.
  - cbv zeta. rewrite storeEdges_cons.
    destruct (storeEdge_step e d) as (Hsub & Hs & Ht & Hg & Ho).
    destruct (IH (storeEdge e d).2) as (Hsub' & Hres & Hg' & Ho').
    set (d1 := (storeEdge e d).2) in *.
    set (d' := (storeEdges es 0 d1).2) in *.
    split; [ by etransitivity | ]. split; [ | split ].
    + intros e' He'. apply elem_of_cons in He' as [-> | He']; [ | by apply Hres ].
      destruct Hs as [s Hs], Ht as [t Ht]. split.
      * exists s. eapply lookup_weaken; eassumption.
      * exists t. eapply lookup_weaken; eassumption.
    + rewrite Hg', Hg. simpl. f_equal. by apply putEdge_weaken.
    + by rewrite Ho'.
Qed.

Lemma storeEdges_settled (es : list EdgeWithMetadata) :
  forall d : DB,
    (forall e, e ∈ es ->
       is_Some (entities d !! srcKey e) /\ is_Some (entities d !! tgtKey e)) ->
    (storeEdges es 0 d).2
    = set_graph_edges (fun m => foldl (putEdge (entities d)) m es) d.
Proof.
  induction es as [|e es IH]; intros d Hres.
  - simpl. by destruct d.
  - rewrite storeEdges_cons.
    destruct (Hres e) as [[s Hs] [t Ht]]; [ apply elem_of_cons; by left | ].
    rewrite (storeEdge_settled e d s t Hs Ht). cbn [snd].
    rewrite IH.
    + by destruct d.
    + intros e' He'. cbn [set_graph_edges entities].
      apply Hres. apply elem_of_cons. by right.
Qed.

Lemma foldl_putEdge_absorb (ents : gmap (string * string * Z) Z)
    (e : EdgeWithMetadata) (es : list EdgeWithMetadata) :
  forall m, putEdge ents (foldl (putEdge ents) (putEdge ents m e) es) e
            = putEdge ents (foldl (putEdge ents) m es) e.
Proof.
  induction es as [|e' es IH]; intros m; simpl.
  - unfold putEdge. by rewrite insert_insert_eq.
  - destruct (decide (edgeKey ents e' = edgeKey ents e)) as [Heq | Hne].
    + assert (putEdge ents (putEdge ents m e) e' = putEdge ents m e') as ->; [ | done ].
      unfold putEdge. rewrite <- Heq. by rewrite insert_insert_eq.
    + assert (putEdge ents (putEdge ents m e) e' = putEdge ents (putEdge ents m e') e)
        as ->; [ | apply IH ].
      unfold putEdge. by rewrite insert_insert_ne.
Qed.

Lemma foldl_putEdge_idem (ents : gmap (string * string * Z) Z)
    (es : list EdgeWithMetadata) :
  forall m, foldl (putEdge ents) (foldl (putEdge ents) m es) es
            = foldl (putEdge ents) m es.
Proof.
  induction es as [|e es IH] using rev_ind; intros m; [ reflexivity | ].
  rewrite !foldl_snoc. rewrite foldl_putEdge_absorb. by rewrite IH.
Qed.

(** Storing the edges of a reply a second time changes nothing. *)
Lemma storeEdges_idempotent (es : list EdgeWithMetadata) (d : DB) :
  (storeEdges es 0 (storeEdges es 0 d).2).2 = (storeEdges es 0 d).2.
Proof.
  destruct (storeEdges_spec es d) as (_ & Hres & Hg & _).
  set (d1 := (storeEdges es 0 d).2) in *.
  rewrite (storeEdges_settled es d1 Hres).
  destruct d1 as [dim fs fseq vs vseq ents eseq ges cgs]. cbn in *.
  unfold set_graph_edges. cbn. f_equal.
  rewrite Hg. apply foldl_putEdge_idem.
Qed.

Lemma subBatches_fuel {A} (n : nat) :
  (1 <= n)%nat ->
  forall (f1 f2 : nat) (l : list A),
    (length l <= f1)%nat -> (length l <= f2)%nat ->
    subBatches f1 n l = subBatches f2 n l.
Proof.
  intros Hn. induction f1 as [|f1 IH]; intros f2 l H1 H2.
  - destruct l; simpl in H1; [ by destruct f2 | lia ].
  - destruct l as [|x l]; [ by destruct f2 | ].
    destruct f2 as [|f2]; simpl in H1, H2; [ lia | ].
    cbn [subBatches]. f_equal. apply IH; rewrite length_drop; simpl; lia.
Qed.

Lemma slice_batch {A} (l : list A) (i batchSize : Z) :
  0 <= i -> 1 <= batchSize ->
  slice l i (if i + batchSize >? Z.of_nat (length l)
             then Z.of_nat (length l) else i + batchSize)
  = take (Z.to_nat batchSize) (drop (Z.to_nat i) l).
Proof.
  intros Hi Hb. unfold slice.
  destruct (Z.gtb_spec (i + batchSize) (Z.of_nat (length l))).
  - rewrite !take_ge; [ done | rewrite length_drop; lia | rewrite length_drop; lia ].
  - f_equal. lia.
Qed.

Lemma callsFrom_nil (n : nat) : callsFrom n [] = [].
Proof. reflexivity. Qed.

Lemma callsFrom_cons (n : nat) (rem : list ChunkWithPath) :
  (1 <= n)%nat -> rem <> [] ->
  callsFrom n rem = (toChunkInput <$> take n rem) :: callsFrom n (drop n rem).
Proof.
  intros Hn Hrem. unfold callsFrom. destruct rem as [|x rem]; [ done | ].
  cbn [length subBatches fmap list_fmap]. f_equal. f_equal.
  apply subBatches_fuel; [ done | | done ].
  rewrite length_drop. simpl. lia.
Qed.

Lemma storeReplies_cons_ok (cfg : Config) (graphClient : GraphExtractor)
    (call : list ChunkInput) (calls : list (list ChunkInput)) (d : DB)
    (edges : list EdgeWithMetadata) :
  ExtractEdgesBatch graphClient (GraphModel cfg) call = Ok edges ->
  storeReplies cfg graphClient (call :: calls) d
  = storeReplies cfg graphClient calls (storeEdges edges 0 d).2.
Proof. intros Hcall. unfold storeReplies. simpl. by rewrite Hcall. Qed.

Lemma batchLoop_spec (cfg : Config) (graphClient : GraphExtractor)
    (dbChunks : list ChunkWithPath) (batchSize : Z) :
  1 <= batchSize ->
  forall (fuel : nat) (i batchNum totalEdges : Z) (d : DB),
    0 <= i ->
    (length (drop (Z.to_nat i) dbChunks) < fuel)%nat ->
    let calls := callsFrom (Z.to_nat batchSize) (drop (Z.to_nat i) dbChunks) in
    let r := batchLoop fuel cfg graphClient dbChunks batchSize i batchNum totalEdges d in
    (Forall (callOk cfg graphClient) calls ->
       r.1.2 = Ok () /\ r.2 = storeReplies cfg graphClient calls d)
    /\ (forall pre bad post msg,
          calls = pre ++ bad :: post ->
          Forall (callOk cfg graphClient) pre ->
          ExtractEdgesBatch graphClient (GraphModel cfg) bad = Err msg ->
          is_Err r.1.2 = true /\ r.2 = storeReplies cfg graphClient pre d).
Proof.
  intros Hb. induction fuel as [|fuel IH]; intros i batchNum totalEdges d Hi Hfuel;
    [ lia | ].
  cbv zeta. cbn [batchLoop].
  destruct (Z.ltb_spec i (Z.of_nat (length dbChunks))) as [Hlt | Hge].
  - assert (drop (Z.to_nat i) dbChunks <> []) as Hrem.
    { intros Hnil. apply drop_nil_inv in Hnil. clear -Hnil Hlt Hi. lia. }
    assert (1 <= Z.to_nat batchSize)%nat as Hn by (clear -Hb; lia).
    rewrite (callsFrom_cons _ _ Hn Hrem).
    rewrite slice_batch by lia.
    assert (drop (Z.to_nat batchSize) (drop (Z.to_nat i) dbChunks)
            = drop (Z.to_nat (i + batchSize)) dbChunks) as ->.
    { rewrite drop_drop. f_equal. lia. }
    set (call := toChunkInput <$> take (Z.to_nat batchSize) (drop (Z.to_nat i) dbChunks)).
    destruct (ExtractEdgesBatch graphClient (GraphModel cfg) call) as [edges|err|m] eqn:Ecall.
    + destruct (storeEdges edges totalEdges d) as [totalEdges' d1] eqn:Estore.
      assert (d1 = (storeEdges edges 0 d).2) as Hd1.
      { rewrite <- storeEdges_total with (t := totalEdges). by rewrite Estore. }
      specialize (IH (i + batchSize) (batchNum + 1) totalEdges' d1 ltac:(lia)).
      destruct IH as [IHok IHerr].
      { rewrite length_drop in *. lia. }
      split.
      * intros Hall. apply Forall_cons in Hall as [_ Hall].
        destruct (IHok Hall) as [-> ->]. split; [ done | ].
        rewrite (storeReplies_cons_ok _ _ _ _ _ _ Ecall). by rewrite Hd1.
      * intros pre bad post msg Hsplit Hpre Hbad.
        destruct pre as [|p pre]; simpl in Hsplit.
        -- injection Hsplit as <- _. congruence.
        -- injection Hsplit as <- Hsplit. apply Forall_cons in Hpre as [_ Hpre].
           destruct (IHerr pre bad post msg Hsplit Hpre Hbad) as [-> ->].
           split; [ done | ].
           rewrite (storeReplies_cons_ok _ _ _ _ _ _ Ecall). by rewrite Hd1.
    + split.
      * intros Hall. apply Forall_cons in Hall as [Hcall _].
        unfold callOk in Hcall. fold call in Hcall. by rewrite Ecall in Hcall.
      * intros pre bad post msg Hsplit Hpre Hbad.
        destruct pre as [|p pre]; simpl in Hsplit.
        -- done.
        -- injection Hsplit as <- _. apply Forall_cons in Hpre as [Hcall _].
           unfold callOk in Hcall. fold call in Hcall. by rewrite Ecall in Hcall.
    + split.
      * intros Hall. apply Forall_cons in Hall as [Hcall _].
        unfold callOk in Hcall. fold call in Hcall. by rewrite Ecall in Hcall.
      * intros pre bad post msg Hsplit Hpre Hbad.
        destruct pre as [|p pre]; simpl in Hsplit.
        -- injection Hsplit as <- _. congruence.
        -- injection Hsplit as <- _. apply Forall_cons in Hpre as [Hcall _].
           unfold callOk in Hcall. fold call in Hcall. by rewrite Ecall in Hcall.
  - rewrite drop_ge by lia. rewrite callsFrom_nil. split.
    + intros _. done.
    + intros pre bad post msg Hsplit. by destruct pre.
Qed.

Lemma llmBatchSize_pos (cfg : Config) (n : Z) : 1 <= n -> 1 <= llmBatchSize cfg n.
Proof.
  intros Hn. unfold llmBatchSize.
  destruct (Z.leb_spec (GraphBatchSize cfg) 0);
    match goal with |- context [ ?a >? ?b ] => destruct (Z.gtb_spec a b) end; lia.
Qed.

Lemma ProcessGraphBatch_spec (cfg : Config) (graphClient : GraphExtractor)
    (chunkIDs : list Z) (d : DB) :
  let calls := graphBatches cfg chunkIDs d in
  let r := ProcessGraphBatch cfg graphClient chunkIDs d in
  (Forall (callOk cfg graphClient) calls ->
     r.1.2 = Ok () /\ r.2 = storeReplies cfg graphClient calls d)
  /\ (forall pre bad post msg,
        calls = pre ++ bad :: post ->
        Forall (callOk cfg graphClient) pre ->
        ExtractEdgesBatch graphClient (GraphModel cfg) bad = Err msg ->
        is_Err r.1.2 = true /\ r.2 = storeReplies cfg graphClient pre d).
Proof.
  unfold ProcessGraphBatch, graphBatches.
  destruct chunkIDs as [|i0 ids].
  - simpl. split; [ done | ]. intros pre bad post msg Hsplit. by destruct pre.
  - destruct (GetChunksByIDs_returns (i0 :: ids) d) as [dbChunks ->].
    destruct dbChunks as [|c0 dbChunks'].
    + simpl. split; [ done | ]. intros pre bad post msg Hsplit. by destruct pre.
    + cbv beta iota.
      assert (1 <= Z.of_nat (length (c0 :: dbChunks'))) as Hlen by (simpl; lia).
      pose proof (llmBatchSize_pos cfg _ Hlen) as Hb.
      pose proof (batchLoop_spec cfg graphClient (c0 :: dbChunks') _ Hb
                    (S (length (c0 :: dbChunks'))) 0 0 0 d ltac:(lia)) as Hloop.
      change (Z.to_nat 0) with 0%nat in Hloop. rewrite drop_0 in Hloop.
      specialize (Hloop ltac:(lia)). cbv zeta in Hloop.
      unfold callsFrom in Hloop. exact Hloop.
Qed.

Lemma foldl_insert_keeps {V} (v : V) (ids : list Z) :
  forall (m : gmap Z V) (i : Z),
    m !! i = Some v -> foldl (fun m k => <[ k := v ]> m) m ids !! i = Some v.
Proof.
  induction ids as [|k ids IH]; intros m i Hm; [ done | ].
  simpl. apply IH. destruct (decide (k = i)) as [-> | Hne].
  - apply lookup_insert_eq.
  - by rewrite lookup_insert_ne.
Qed.

Lemma foldl_insert_member {V} (v : V) (ids : list Z) :
  forall (m : gmap Z V) (i : Z),
    i ∈ ids -> foldl (fun m k => <[ k := v ]> m) m ids !! i = Some v.
Proof.
  induction ids as [|k ids IH]; intros m i Hi; [ by apply elem_of_nil in Hi | ].
  simpl. apply elem_of_cons in Hi as [-> | Hi].
  - apply foldl_insert_keeps, lookup_insert_eq.
  - by apply IH.
Qed.

Lemma MarkChunksGraphExtracted_marks (chunkIDs : list Z) (now : Z) (d : DB) (i : Z) :
  i ∈ chunkIDs ->
  chunk_graph_state (MarkChunksGraphExtracted chunkIDs now d) !! i
  = Some {| graph_extracted := true; extracted_at := Some now |}.
Proof.
  intros Hi. unfold MarkChunksGraphExtracted.
  destruct chunkIDs as [|k ids]; [ by apply elem_of_nil in Hi | ].
  cbn [set_chunk_graph_state chunk_graph_state].
  by apply (foldl_insert_member _ (k :: ids)).
Qed.

Lemma needing_extraction_unmarked (limit : Z) (d : DB) (chunkIDs : list Z) (i : Z) :
  GetChunksNeedingGraphExtraction limit d = Ok chunkIDs ->
  i ∈ chunkIDs -> isExtracted i d = false.
Proof.
  unfold GetChunksNeedingGraphExtraction. intros [= <-] Hi.
  apply list_elem_of_fmap in Hi as (row & -> & Hrow).
  assert (row ∈ merge_sort rows_by_chunk_id
            (filter (fun v => isExtracted (chunk_id v) d = false) (vec_chunks d))) as Hin.
  { unfold sqlLimit in Hrow. destruct (limit <? 0); [ done | ].
    by eapply subseteq_take. }
  rewrite merge_sort_Permutation in Hin.
  by apply list_elem_of_filter in Hin as [Hp _].
Qed.

Lemma storeReplies_otherTables (cfg : Config) (graphClient : GraphExtractor)
    (calls : list (list ChunkInput)) :
  forall d : DB, otherTables (storeReplies cfg graphClient calls d) = otherTables d.
Proof.
  unfold storeReplies. induction calls as [|call calls IH]; intros d; [ done | ].
  simpl. rewrite IH.
  destruct (ExtractEdgesBatch graphClient (GraphModel cfg) call) as [edges| |]; try done.
  by destruct (storeEdges_spec edges d) as (_ & _ & _ & Ho).
Qed.

Lemma storeReplies_chunk_graph_state (cfg : Config) (graphClient : GraphExtractor)
    (calls : list (list ChunkInput)) (d : DB) :
  chunk_graph_state (storeReplies cfg graphClient calls d) = chunk_graph_state d.
Proof.
  pose proof (storeReplies_otherTables cfg graphClient calls d) as Ho.
  unfold otherTables in Ho. congruence.
Qed.

(** C5.  Let [chunkIDs] be the batch a poll of the graph worker drains and
    [calls] the inputs of its sub-batches.  If the provider succeeds on every
    call, the poll ends with all ids of the batch marked extracted, by the one
    marking transaction, run on the store that holds the edges of all replies.
    If the provider succeeds on the calls [pre] and returns an error on the
    next one, no id of the batch is marked (the watermark table is untouched)
    and the store is the one that holds the edges of the replies to [pre].
    Storing the edges of a reply once more, as a retry does, changes no
    table: the rows are absorbed by the keys. *)
Theorem C5_extraction_watermark (cfg : Config) (graphClient : GraphExtractor)
    (batchSize now : Z) (d : DB) (chunkIDs : list Z) :
  GetChunksNeedingGraphExtraction batchSize d = Ok chunkIDs ->
  let calls := graphBatches cfg chunkIDs d in
  let d' := processChunks cfg graphClient batchSize now d in
  (Forall (fun call => is_Ok (ExtractEdgesBatch graphClient (GraphModel cfg) call) = true)
          calls ->
     (forall i, i ∈ chunkIDs ->
        chunk_graph_state d' !! i
        = Some {| graph_extracted := true; extracted_at := Some now |})
     /\ d' = MarkChunksGraphExtracted chunkIDs now (storeReplies cfg graphClient calls d))
  /\ (forall pre bad post msg,
        calls = pre ++ bad :: post ->
        Forall (fun call => is_Ok (ExtractEdgesBatch graphClient (GraphModel cfg) call) = true)
               pre ->
        ExtractEdgesBatch graphClient (GraphModel cfg) bad = Err msg ->
        (forall i, i ∈ chunkIDs -> isExtracted i d' = false)
        /\ chunk_graph_state d' = chunk_graph_state d
        /\ d' = storeReplies cfg graphClient pre d)
  /\ (forall edges d0,
        (storeEdges edges 0 (storeEdges edges 0 d0).2).2 = (storeEdges edges 0 d0).2).
Proof.
  intros Hneed calls d'.
  pose proof (ProcessGraphBatch_spec cfg graphClient chunkIDs d) as [Hok Herr].
  fold calls in Hok, Herr.
  assert (d' = match chunkIDs with
               | [] => d
               | _ => match ProcessGraphBatch cfg graphClient chunkIDs d with
                      | (_, Ok _, d1) => MarkChunksGraphExtracted chunkIDs now d1
                      | (_, _, d1) => d1
                      end
               end) as Hd'.
  { subst d'. unfold processChunks. rewrite Hneed. by destruct chunkIDs. }
  clearbody d'.
  destruct (ProcessGraphBatch cfg graphClient chunkIDs d) as [[total r] d1].
  cbn [fst snd] in Hok, Herr.
  split; [ | split ].
  - intros Hall. destruct (Hok Hall) as [-> ->].
    assert (d' = MarkChunksGraphExtracted chunkIDs now
                   (storeReplies cfg graphClient calls d)) as ->.
    { rewrite Hd'. destruct chunkIDs; [ | done ].
      subst calls. unfold graphBatches. simpl. reflexivity. }
    split; [ | done ].
    intros i Hi. by apply MarkChunksGraphExtracted_marks.
  - intros pre bad post msg Hsplit Hpre Hbad.
    destruct (Herr pre bad post msg Hsplit Hpre Hbad) as [Hr ->].
    assert (d' = storeReplies cfg graphClient pre d) as ->.
    { rewrite Hd'. destruct chunkIDs as [|i0 ids].
      - subst calls. unfold graphBatches in Hsplit. simpl in Hsplit. by destruct pre.
      - by destruct r. }
    rewrite storeReplies_chunk_graph_state.
    split; [ | done ].
    intros i Hi. unfold isExtracted. rewrite storeReplies_chunk_graph_state.
    by eapply needing_extraction_unmarked.
  - intros edges d0. apply storeEdges_idempotent.
Qed.

End GraphProps.

Section GraphRuns.
#[local] Existing Instance toyVec.

Lemma C5_extraction_watermark_witness :
  db.GetChunksNeedingGraphExtraction 150 storeTwoChunks = Ok [ 1; 2 ]
  /\ forall i, i ∈ [ 1; 2 ] ->
       db.chunk_graph_state
         (indexer.processChunks indexer.DefaultConfig oneEdgePerChunk 150 7 storeTwoChunks)
         !! i
       = Some {| db.graph_extracted := true; db.extracted_at := Some 7 |}.
Proof.
  split; [ reflexivity | ].
  apply (C5_extraction_watermark (H := toyVec) indexer.DefaultConfig oneEdgePerChunk
           150 7 storeTwoChunks [ 1; 2 ] eq_refl).
  repeat constructor.
Defined.

Example processChunks_success_marks_and_stores :
  let d' := indexer.processChunks indexer.DefaultConfig oneEdgePerChunk 150 7 storeTwoChunks in
  (db.isExtracted 1 d', db.isExtracted 2 d', size (db.entities d'), size (db.graph_edges d'))
  = (true, true, 4%nat, 2%nat).
Proof. vm_compute. reflexivity. Qed.

Example processChunks_failure_marks_nothing :
  let d' := indexer.processChunks indexer.DefaultConfig failingExtractor 150 7 storeTwoChunks in
  (db.isExtracted 1 d', db.isExtracted 2 d', d') = (false, false, storeTwoChunks).
Proof. vm_compute. reflexivity. Qed.

(** ** The embedding worker on concrete runs *)

End GraphRuns.

Section WorkerRuns.
Import strings db indexer worker main.
#[local] Existing Instance toyVec.
#[local] Existing Instance toyPlatform.
#[local] Existing Instance identityAbs.

(** Re-queueing resets the counter: whenever [handleFailure] takes the retry
    branch, the row of the file is pending with a retry counter of zero. *)
Lemma handleFailure_requeue_resets_retry_count `{SqliteVec} `{Platform}
    (w : IndexWorker) (file : File) (indexErr : string) (st : World) (row : FileRow) :
  addI (RetryCount file) 1 < maxRetries w ->
  row ∈ files (w_db (handleFailure w file indexErr st)) ->
  path row = Path file ->
  status row = "pending" /\ retry_count row = 0.
Proof.
  intros Hlt Hrow Hpath. unfold handleFailure in Hrow.
  destruct (Z.geb_spec (addI (RetryCount file) 1) (maxRetries w)); [ lia | ].
  cbn in Hrow. unfold MarkFilePending, upsertByPath in Hrow.
  destruct (findFile (Path file) (w_db st)) as [old|] eqn:Efind; cbn in Hrow.
  - apply list_elem_of_fmap in Hrow as (r0 & -> & _).
    destruct (String.eqb_spec (path r0) (Path file)) as [Heq | Hne].
    + by split.
    + simpl in Hpath. contradiction.
  - apply elem_of_app in Hrow as [Hrow | Hrow].
    + exfalso. unfold findFile in Efind.
      assert (In row (files (w_db st))) as Hin by (by apply list_elem_of_In).
      pose proof (find_none _ _ Efind row Hin) as Hf. cbv beta in Hf.
      apply String.eqb_neq in Hf. contradiction.
    + apply list_elem_of_singleton in Hrow as ->. by split.
Qed.

Lemma queued_is_stuck : queued = stuck 1001 1000 1000 [].
Proof. vm_compute. reflexivity. Qed.

(** One poll with the provider down: the attempt is made, fails, and the row
    is back where it was. *)
Lemma poll_keeps_stuck (c t q : Z) (calls : list (list string)) :
  worker.processBatch daemonWorker DefaultConfig downEmbedder fs1 (stuck c t q calls)
  = stuck (c + 1 + 1) c (c + 1) (calls ++ [ [ sourceText ] ]).
Proof. vm_compute. reflexivity. Qed.

Lemma polls_keep_stuck (n : nat) :
  forall (c t q : Z) (calls : list (list string)),
    exists c' t' q' calls',
      polls n daemonWorker DefaultConfig downEmbedder fs1 (stuck c t q calls)
      = stuck c' t' q' calls'
      /\ length calls' = (length calls + n)%nat.
Proof.
  induction n as [|n IH]; intros c t q calls.
  - exists c, t, q, calls. split; [ reflexivity | lia ].
  - cbn [polls]. rewrite poll_keeps_stuck.
    destruct (IH (c + 1 + 1) c (c + 1) (calls ++ [ [ sourceText ] ]))
      as (c' & t' & q' & calls' & -> & Hlen).
    exists c', t', q', calls'. split; [ reflexivity | ].
    rewrite Hlen, length_app. simpl. lia.
Qed.

(** However many times the worker polls, the failing file is pending with a
    retry counter of 0 afterwards, and every poll has called the provider. *)
Lemma failing_file_is_never_marked_failed (n : nat) :
  let st := polls n daemonWorker DefaultConfig downEmbedder fs1 queued in
  queueState st = [ ("/p/a.go", "pending", 0) ]
  /\ length (w_embedCalls st) = n.
Proof.
  cbv zeta. rewrite queued_is_stuck.
  destruct (polls_keep_stuck n 1001 1000 1000 []) as (c' & t' & q' & calls' & -> & Hlen).
  split; [ reflexivity | exact Hlen ].
Qed.

(** Three polls, evaluated. *)
Example three_failed_attempts_leave_file_pending :
  queueState (polls 3 daemonWorker DefaultConfig downEmbedder fs1 queued)
  = [ ("/p/a.go", "pending", 0) ]
  /\ length (w_embedCalls (polls 3 daemonWorker DefaultConfig downEmbedder fs1 queued))
     = 3%nat.
Proof. vm_compute. split; reflexivity. Qed.

(** C2 (code defect).  With the provider down, every attempt at the queued
    file fails.  The worker's maximum is 3, yet after any number [n] of polls
    (3 in particular) the row is pending with a retry counter of 0, and the
    provider has been called [n] times: the counter the failure handler
    increments is a local copy, and re-queueing through mark-pending writes 0
    to the row, so the maximum is never reached and the file is never marked
    failed. *)
Theorem C2_retry_counter_never_reaches_maximum :
  maxRetries daemonWorker = 3
  /\ forall n : nat,
       let st := polls n daemonWorker DefaultConfig downEmbedder fs1 queued in
       queueState st = [ ("/p/a.go", "pending", 0) ]
       /\ length (w_embedCalls st) = n.
Proof. split; [ reflexivity | apply failing_file_is_never_marked_failed ]. Qed.

(** With a maximum of 1 the first failure is final. *)
Example one_retry_fails_at_once :
  queueState (polls 1 (NewIndexWorker {| PollInterval := 0; BatchSize := 5; MaxRetries := 1 |})
                    DefaultConfig downEmbedder fs1 queued)
  = [ ("/p/a.go", "failed", 1) ].
Proof. vm_compute. reflexivity. Qed.

(** C3 (code defect).  The file is indexed, then queued and polled again with
    the same content and modification time.  The store's own change test says
    the file is unchanged, yet the second pass deletes chunk 1, inserts
    chunk 2 and calls the embedding provider a second time: [IndexFile]
    computes the digest and never compares it with the stored one. *)
Theorem C3_unchanged_file_is_reindexed :
  queueState indexedOnce = [ ("/p/a.go", "indexed", 0) ]
  /\ chunkIDsOf 1 indexedOnce = [ 1 ]
  /\ w_embedCalls indexedOnce = [ [ sourceText ] ]
  /\ HasFileChanged "/p/a.go" 42 (sha256_hex sourceText) (w_db indexedOnce) = Ok false
  /\ queueState indexedTwice = [ ("/p/a.go", "indexed", 0) ]
  /\ chunkIDsOf 1 indexedTwice = [ 2 ]
  /\ w_embedCalls indexedTwice = [ [ sourceText ]; [ sourceText ] ].
Proof. vm_compute. repeat split; reflexivity. Qed.

(** C4 (code defect).  A file of one line without final newline, ten bytes
    long, is one chunk with start line 1 and end line 0 under the default
    configuration; and in the sliding-window path the last chunk of a text
    whose last line has no newline starts on line 3 and ends on line 2.  The
    end line is the number of newlines before the end offset, which is one
    less than the line of the last byte when the chunk does not end in a
    newline. *)
Theorem C4_end_line_before_start_line :
  chunkContent DefaultConfig "0123456789" 1 "/p/a.txt"
  = Some [ {| Ck_FileID := 1; Ck_FilePath := "/p/a.txt"; Ck_Content := "0123456789";
              Ck_StartOffset := 0; Ck_EndOffset := 10;
              Ck_StartLine := 1; Ck_EndLine := 0 |} ]
  /\ chunkContent testConfig
       ("line one" +:+ nl +:+ "line two" +:+ nl +:+ "last line here") 1 "/p/b.txt"
     = Some [ {| Ck_FileID := 1; Ck_FilePath := "/p/b.txt";
                 Ck_Content := "line one" +:+ nl +:+ "line two" +:+ nl;
                 Ck_StartOffset := 0; Ck_EndOffset := 18;
                 Ck_StartLine := 1; Ck_EndLine := 2 |};
              {| Ck_FileID := 1; Ck_FilePath := "/p/b.txt";
                 Ck_Content := "last line here";
                 Ck_StartOffset := 18; Ck_EndOffset := 32;
                 Ck_StartLine := 3; Ck_EndLine := 2 |} ].
Proof. vm_compute. split; reflexivity. Qed.

End WorkerRuns.

(** ** [ParseJSONL] on concrete replies *)

Section JsonlRuns.
Import strings llm.
#[local] Existing Instance asciiTrim.
#[local] Existing Instance digitJson.

(** A fenced reply with a valid line, prose, a line that does not decode and
    a line with an unknown chunk number: the valid edge, no error. *)
Example ParseJSONL_partial :
  ParseJSONL ("```json" +:+ nl +:+ "{2}" +:+ nl +:+ "Here are the edges:" +:+ nl +:+
              "{x}" +:+ nl +:+ nl +:+ "  {9}" +:+ nl +:+ "```") twoChunks
  = Ok [ {| E_Edge := {| Source := "main"; SourceType := "FUNCTION";
                         Target := "helper"; TargetType := "FUNCTION";
                         RelationType := "calls" |};
            E_ChunkID := 12; E_FileID := 5 |} ].
Proof. vm_compute. reflexivity. Qed.

(** No valid line and two parse errors: an error that lists them. *)
Example ParseJSONL_only_errors :
  ParseJSONL ("{x}" +:+ nl +:+ "prose" +:+ nl +:+ "{9}") twoChunks
  = Err "failed to parse JSONL: line 1: invalid character; line 3: invalid chunk number 9".
Proof. vm_compute. reflexivity. Qed.

(** Nothing that looks like JSON: the empty list and no error. *)
Example ParseJSONL_nothing :
  ParseJSONL ("No relationships found." +:+ nl) twoChunks = Ok [].
Proof. vm_compute. reflexivity. Qed.

Lemma C8_ParseJSONL_partial_parse_witness :
  omap (lineEdge twoChunks) (responseLines ("{2}" +:+ nl +:+ "{x}")) <> []
  /\ ParseJSONL ("{2}" +:+ nl +:+ "{x}") twoChunks
     = Ok (omap (lineEdge twoChunks) (responseLines ("{2}" +:+ nl +:+ "{x}"))).
Proof.
  apply (C8_ParseJSONL_partial_parse ("{2}" +:+ nl +:+ "{x}") twoChunks).
  exists "{2}". eexists. split; [ | vm_compute; reflexivity ].
  vm_compute. apply elem_of_cons. by left.
Defined.

End JsonlRuns.

(** ** The chunker in general: what holds of every chunk *)

Section ChunkerProps.
Import strings indexer.

Lemma take_str_all (s : string) : take_str (String.length s) s = s.
Proof. induction s as [|c s IH]; simpl; [ done | by rewrite IH ]. Qed.

Lemma bytes_whole (content : string) : bytes content 0 (len content) = Some content.
Proof.
  unfold bytes, len. rewrite Z.sub_0_r, Nat2Z.id. simpl.
  rewrite take_str_all.
  destruct (Z.leb_spec 0 (Z.of_nat (String.length content))); [ | lia ].
  by rewrite Z.leb_refl.
Qed.

Lemma chunkLoop_chunks (cfg : Config) (content : string) (fileID : Z)
    (filePath : string) (stride : Z) (fuel : nat) :
  forall (offset : Z) (acc chunks : list Chunk),
    Forall (chunkRecordOk cfg content) acc ->
    chunkLoop fuel cfg content fileID filePath stride offset acc = Some chunks ->
    Forall (chunkRecordOk cfg content) chunks.
Proof.
  induction fuel as [|fuel IH]; intros offset acc chunks Hacc; cbn [chunkLoop].
  - destruct (negb (offset <? len content)); [ | discriminate ]. by intros [= <-].
  - destruct (negb (offset <? len content)); [ by intros [= <-] | ].
    set (end0 := if subI (min (addI offset (ChunkSize cfg)) (len content)) offset
                      >? MaxChunkSize cfg
                 then addI offset (MaxChunkSize cfg)
                 else min (addI offset (ChunkSize cfg)) (len content)).
    destruct (if offset >? 0
              then o ← skipToNewline (String.length content) content offset;
                   Some (if o <? len content then addI o 1 else o)
              else Some offset) as [offset'|]; [ | discriminate ].
    cbn [mbind option_bind].
    destruct (if end0 <? len content
              then backToNewline (String.length content) content offset' end0
              else Some end0) as [end'|]; [ | discriminate ].
    cbn [mbind option_bind].
    destruct (end' <=? offset'); [ by apply IH | ].
    destruct (bytes content offset' end') as [chunkBytes|] eqn:Eb; [ | discriminate ].
    cbn [mbind option_bind].
    destruct (Z.geb_spec (len chunkBytes) (MinChunkSize cfg)) as [Hmin | Hsmall].
    + destruct (bytes content 0 offset') as [head|] eqn:Eh; [ | discriminate ].
      destruct (bytes content 0 end') as [upto|] eqn:Eu; [ | discriminate ].
      cbn [mbind option_bind].
      assert (Forall (chunkRecordOk cfg content)
                (acc ++ [ {| Ck_FileID := fileID; Ck_FilePath := filePath;
                             Ck_Content := chunkBytes;
                             Ck_StartOffset := offset'; Ck_EndOffset := end';
                             Ck_StartLine := addI (countLines head) 1;
                             Ck_EndLine := countLines upto |} ])) as Hacc'.
      { apply Forall_app. split; [ done | ]. apply Forall_singleton.
        unfold chunkRecordOk. cbn. repeat split; eauto. }
      destruct (end' >=? len content); [ by intros [= <-] | by apply IH ].
    + destruct (end' >=? len content); [ by intros [= <-] | by apply IH ].
Qed.

(** Every chunk the chunker returns is recorded as [chunkRecordOk] says; in
    particular it is never shorter than the configured minimum. *)
Lemma chunkContent_chunks (cfg : Config) (content : string) (fileID : Z)
    (filePath : string) (chunks : list Chunk) :
  chunkContent cfg content fileID filePath = Some chunks ->
  Forall (chunkRecordOk cfg content) chunks.
Proof.
  unfold chunkContent.
  destruct (Z.ltb_spec (len content) (MinChunkSize cfg)); [ by intros [= <-] | ].
  destruct (len content <=? ChunkSize cfg).
  - intros [= <-]. apply Forall_singleton. unfold chunkRecordOk. cbn.
    split; [ done | ]. split; [ apply bytes_whole | ]. split.
    + exists "". split; [ | reflexivity ].
      unfold bytes. simpl. destruct (Z.leb_spec 0 (len content)); [ done | ].
      unfold len in *. lia.
    + exists content. split; [ apply bytes_whole | reflexivity ].
  - by apply chunkLoop_chunks.
Qed.

Lemma wrap64_small (z : Z) : - 2 ^ 63 <= z < 2 ^ 63 -> wrap64 z = z.
Proof. intros Hz. unfold wrap64. rewrite Z.mod_small; lia. Qed.

Lemma get_is_some (s : string) :
  forall n : nat, (n < String.length s)%nat -> exists b, String.get n s = Some b.
Proof.
  induction s as [|c s IH]; intros n Hn; simpl in Hn; [ lia | ].
  destruct n as [|n]; simpl; [ by exists c | ]. apply IH. lia.
Qed.

Lemma byteAt_is_some (content : string) (i : Z) :
  0 <= i < len content -> exists b, byteAt content i = Some b.
Proof.
  intros Hi. unfold byteAt. destruct (Z.ltb_spec i 0); [ lia | ].
  apply get_is_some. unfold len in Hi. lia.
Qed.

Lemma bytes_is_some (content : string) (i j : Z) :
  0 <= i -> i <= j -> j <= len content -> exists b, bytes content i j = Some b.
Proof.
  intros Hi Hij Hj. unfold bytes.
  destruct (Z.leb_spec 0 i); [ | lia ].
  destruct (Z.leb_spec i j); [ | lia ].
  destruct (Z.leb_spec j (len content)); [ | lia ].
  simpl. eauto.
Qed.

Lemma skipToNewline_returns (content : string) (fuel : nat) :
  len content < 2 ^ 62 ->
  forall offset : Z,
    0 <= offset ->
    (Z.to_nat (len content - offset) <= fuel)%nat ->
    exists o, skipToNewline fuel content offset = Some o
              /\ offset <= o /\ o <= Z.max offset (len content).
Proof.
  intros Hlen. induction fuel as [|fuel IH]; intros offset Hoff Hfuel;
    cbn [skipToNewline];
    (destruct (Z.ltb_spec offset (len content)) as [Hlt | Hge]; cbn [negb];
     [ | exists offset; split; [ done | lia ] ]);
    (destruct (byteAt_is_some content offset ltac:(lia)) as [b ->]; cbn [mbind option_bind]);
    (destruct (Ascii.eqb b newline); [ exists offset; split; [ done | lia ] | ]).
  - lia.
  - unfold addI. rewrite wrap64_small by lia.
    destruct (IH (offset + 1) ltac:(lia) ltac:(lia)) as (o & -> & Ho1 & Ho2).
    exists o. split; [ done | lia ].
Qed.

Lemma backToNewline_returns (content : string) (offset : Z) (fuel : nat) :
  len content < 2 ^ 62 -> 0 <= offset ->
  forall end_ : Z,
    end_ <= len content ->
    - 2 ^ 62 < end_ ->
    (Z.to_nat (end_ - offset) <= fuel)%nat ->
    exists e, backToNewline fuel content offset end_ = Some e
              /\ e <= end_ /\ (offset <= end_ -> offset <= e).
Proof.
  intros Hlen Hoff. induction fuel as [|fuel IH]; intros end_ Hend Hlow Hfuel;
    cbn [backToNewline];
    (destruct (Z.gtb_spec end_ offset) as [Hgt | Hle]; cbn [negb];
     [ | exists end_; split; [ done | lia ] ]);
    (unfold subI; rewrite wrap64_small by lia);
    (destruct (byteAt_is_some content (end_ - 1) ltac:(lia)) as [b ->];
     cbn [mbind option_bind]);
    (destruct (Ascii.eqb b newline); [ exists end_; split; [ done | lia ] | ]).
  - lia.
  - destruct (IH (end_ - 1) ltac:(lia) ltac:(lia) ltac:(lia)) as (e & -> & He1 & He2).
    exists e. split; [ done | lia ].
Qed.

Lemma chunkLoop_returns (cfg : Config) (content : string) (fileID : Z)
    (filePath : string) (stride : Z) :
  validConfig cfg -> len content < 2 ^ 62 -> 1 <= stride < 2 ^ 62 ->
  forall (fuel : nat) (offset : Z) (acc : list Chunk),
    0 <= offset ->
    (Z.to_nat (len content - offset) < fuel)%nat ->
    exists chunks, chunkLoop fuel cfg content fileID filePath stride offset acc = Some chunks.
Proof.
  intros (HC & HO & HX) Hlen Hstride.
  induction fuel as [|fuel IH]; intros offset acc Hoff Hfuel; [ lia | ].
  cbn [chunkLoop].
  destruct (Z.ltb_spec offset (len content)) as [Hlt | Hge]; cbn [negb]; [ | eauto ].
  (* the window end, before alignment *)
  set (end0 := if subI (min (addI offset (ChunkSize cfg)) (len content)) offset
                    >? MaxChunkSize cfg
               then addI offset (MaxChunkSize cfg)
               else min (addI offset (ChunkSize cfg)) (len content)).
  assert (end0 <= len content /\ - 2 ^ 62 < end0) as [Hend0 Hend0'].
  { subst end0. unfold addI, subI, min.
    rewrite (wrap64_small (offset + ChunkSize cfg)) by lia.
    destruct (Z.ltb_spec (offset + ChunkSize cfg) (len content));
      rewrite wrap64_small by lia;
      match goal with |- context [ ?a >? ?b ] => destruct (Z.gtb_spec a b) end;
      rewrite ?wrap64_small by lia; lia. }
  clearbody end0.
  (* the aligned start *)
  assert (exists offset',
            (if offset >? 0
             then o ← skipToNewline (String.length content) content offset;
                  Some (if o <? len content then addI o 1 else o)
             else Some offset) = Some offset'
            /\ offset <= offset' <= len content) as (offset' & -> & Hoff').
  { destruct (offset >? 0); [ | exists offset; split; [ done | lia ] ].
    destruct (skipToNewline_returns content (String.length content) Hlen offset Hoff)
      as (o & -> & Ho1 & Ho2); [ unfold len; lia | ].
    cbn [mbind option_bind]. eexists. split; [ reflexivity | ].
    destruct (Z.ltb_spec o (len content)); [ | lia ].
    unfold addI. rewrite wrap64_small by lia. lia. }
  cbn [mbind option_bind].
  (* the aligned end *)
  assert (exists end',
            (if end0 <? len content
             then backToNewline (String.length content) content offset' end0
             else Some end0) = Some end'
            /\ end' <= len content) as (end' & -> & Hend').
  { destruct (Z.ltb_spec end0 (len content)); [ | exists end0; split; [ done | lia ] ].
    destruct (backToNewline_returns content offset' (String.length content) Hlen
                ltac:(lia) end0 Hend0 Hend0') as (e & -> & He1 & He2);
      [ unfold len in *; lia | ].
    exists e. split; [ done | lia ]. }
  cbn [mbind option_bind].
  destruct (Z.leb_spec end' offset') as [Hskip | Hkeep].
  - apply IH.
    + unfold addI, min. destruct (stride <? 100); rewrite wrap64_small by lia; lia.
    + unfold addI, min. destruct (Z.ltb_spec stride 100); rewrite wrap64_small by lia; lia.
  - destruct (bytes_is_some content offset' end') as [chunkBytes ->]; [ lia | lia | lia | ].
    destruct (bytes_is_some content 0 offset') as [head ->]; [ lia | lia | lia | ].
    destruct (bytes_is_some content 0 end') as [upto ->]; [ lia | lia | lia | ].
    cbn [mbind option_bind].
    destruct (len chunkBytes >=? MinChunkSize cfg); cbn [mbind option_bind];
      (destruct (end' >=? len content); [ eauto | ]);
      apply IH; unfold addI; rewrite wrap64_small by lia; lia.
Qed.

(** The chunker returns on every valid configuration: no index leaves its
    range and the window loop ends within the rounds the model allows. *)
Lemma chunkContent_returns (cfg : Config) (content : string) (fileID : Z)
    (filePath : string) :
  validConfig cfg -> len content < 2 ^ 62 ->
  exists chunks, chunkContent cfg content fileID filePath = Some chunks
                 /\ Forall (chunkRecordOk cfg content) chunks.
Proof.
  intros Hcfg Hlen.
  assert (exists chunks, chunkContent cfg content fileID filePath = Some chunks)
    as [chunks Hchunks].
  { unfold chunkContent.
    destruct (len content <? MinChunkSize cfg); [ eauto | ].
    destruct (len content <=? ChunkSize cfg); [ eauto | ].
    apply chunkLoop_returns; try done.
    - destruct Hcfg as (HC & HO & HX). unfold subI.
      rewrite wrap64_small by lia.
      destruct (Z.leb_spec (ChunkSize cfg - ChunkOverlap cfg) 0); lia.
    - unfold len. lia. }
  exists chunks. split; [ done | by eapply chunkContent_chunks ].
Qed.

Lemma take_str_split (s : string) :
  forall a b : nat, take_str (a + b) s = take_str a s +:+ take_str b (drop_str a s).
Proof.
  induction s as [|c s IH]; intros a b.
  - destruct a, b; reflexivity.
  - destruct a as [|a]; simpl; [ reflexivity | ]. by rewrite IH.
Qed.

Lemma countLines_app (a b : string) :
  countLines (a +:+ b) = countLines a + countLines b.
Proof. induction a as [|c a IH]; simpl; [ reflexivity | ]. rewrite IH. lia. Qed.

Lemma countLines_bounds (s : string) : 0 <= countLines s <= len s.
Proof.
  unfold len. induction s as [|c s IH]; simpl; [ lia | ].
  destruct (Ascii.eqb c newline); lia.
Qed.

Lemma len_take_str (s : string) : forall n : nat, len (take_str n s) <= len s.
Proof.
  unfold len. induction s as [|c s IH]; intros n; destruct n; simpl; try lia.
  specialize (IH n). lia.
Qed.

(** The two line numbers of a chunk differ by the number of newlines in the
    chunk, less one: the start line is at most the end line exactly when the
    chunk holds a newline. *)
Lemma chunk_line_numbers (cfg : Config) (content : string) (c : Chunk) :
  len content < 2 ^ 62 ->
  chunkRecordOk cfg content c ->
  1 <= Ck_StartLine c
  /\ Ck_EndLine c = Ck_StartLine c - 1 + countLines (Ck_Content c)
  /\ (Ck_StartLine c <= Ck_EndLine c <-> 1 <= countLines (Ck_Content c)).
Proof.
  intros Hlen (_ & Hbytes & (head & Hhead & Hstart) & (upto & Hupto & Hend)).
  unfold bytes in Hbytes, Hhead, Hupto.
  destruct (Z.leb_spec 0 (Ck_StartOffset c)) as [Hso | ];
    [ | rewrite !andb_false_l in Hbytes; discriminate ].
  destruct (Z.leb_spec (Ck_StartOffset c) (Ck_EndOffset c)) as [Hse | ];
    [ | rewrite andb_false_r in Hbytes; discriminate ].
  destruct (Z.leb_spec (Ck_EndOffset c) (len content)) as [Heo | ];
    [ | rewrite andb_false_r in Hbytes; discriminate ].
  destruct (Z.leb_spec (Ck_StartOffset c) (len content)); [ | lia ].
  destruct (Z.leb_spec 0 (Ck_EndOffset c)); [ | lia ].
  cbn in Hbytes, Hhead, Hupto.
  injection Hbytes as Hbytes. injection Hhead as Hhead. injection Hupto as Hupto.
  rewrite Z.sub_0_r in Hhead, Hupto.
  assert (upto = head +:+ Ck_Content c) as Hsplit.
  { rewrite <- Hupto, <- Hhead, <- Hbytes, <- take_str_split. f_equal. lia. }
  pose proof (countLines_bounds head) as Hb1.
  pose proof (countLines_bounds (Ck_Content c)) as Hb2.
  assert (len head <= len content) as Hlh by (rewrite <- Hhead; apply len_take_str).
  assert (Ck_StartLine c = countLines head + 1) as Hs.
  { rewrite Hstart. unfold addI. apply wrap64_small. lia. }
  assert (Ck_EndLine c = countLines head + countLines (Ck_Content c)) as He.
  { by rewrite Hend, Hsplit, countLines_app. }
  lia.
Qed.

End ChunkerProps.
